(** * rpcfuzz: the RPC conformance tests of polygon-cli

    A shallow embedding of [cmd/rpcfuzz/rpcfuzz.go]: the validator
    strategies, the chain combinator, the test-case abstraction, the
    registry built by [setupTests] and the loop of [RPCFuzzCmd.RunE].

    Go values of type [interface{}] are a tagged union of their dynamic
    types.  A Go function that may have side effects or panic is a
    function on an explicit world that returns [Ret] or [Panic].  The
    packages the file imports ([regexp], [encoding/json], [gojsonschema],
    [go-ethereum], [rpctypes]) are interfaces (type classes). *)

From Stdlib Require Import List String Ascii Bool Arith ZArith Lia PrimFloat.
Import ListNotations.
Open Scope string_scope.
Open Scope list_scope.

Set Implicit Arguments.
Set Warnings "-register-all".

(** ** Values held by an [interface{}] *)

(** An error value refers to an error object: [err_id] is the identity
    of the object, [err_msg] is what its [Error] method returns. *)
Record ErrObj : Type := mkErr { err_id : nat; err_msg : string }.

Definition Error (e : ErrObj) : string := err_msg e.

(** The dynamic types that occur: what [encoding/json] decodes into an
    [interface{}] (nil, bool, float64, string, []interface{},
    map[string]interface{}), Go's [int] (an untyped integer constant
    stored in an interface), and error values. *)
Inductive Value : Type :=
| VNil
| VBool (b : bool)
| VInt (n : Z)
| VFloat64 (f : float)
| VString (s : string)
| VSlice (l : list Value)
| VMap (m : list (string * Value))
| VError (e : ErrObj).

Inductive GoType : Type :=
| TNil | TBool | TInt | TFloat64 | TString | TSlice | TMap | TError.

Definition dyn_type (v : Value) : GoType :=
  match v with
  | VNil => TNil
  | VBool _ => TBool
  | VInt _ => TInt
  | VFloat64 _ => TFloat64
  | VString _ => TString
  | VSlice _ => TSlice
  | VMap _ => TMap
  | VError _ => TError
  end.

(** The types of the values a test can expect exactly: the comparable
    primitive ones. *)
Definition comparable_primitive (v : Value) : bool :=
  match v with
  | VBool _ | VInt _ | VFloat64 _ | VString _ => true
  | _ => false
  end.

(** Slices and maps, the structured values of a decoded response. *)
Definition structured (v : Value) : bool :=
  match v with
  | VSlice _ | VMap _ => true
  | _ => false
  end.

(** Go's [==] on two interface values: equal when both are nil, or when
    the dynamic types are identical and the dynamic values are equal.
    Identical dynamic types that are not comparable (slices, maps) make
    the comparison panic: [None]. *)
Definition go_eq (x y : Value) : option bool :=
  match x, y with
  | VNil, VNil => Some true
  | VBool a, VBool b => Some (Bool.eqb a b)
  | VInt a, VInt b => Some (Z.eqb a b)
  | VFloat64 a, VFloat64 b => Some (PrimFloat.eqb a b)
  | VString a, VString b => Some (String.eqb a b)
  | VError a, VError b => Some (Nat.eqb (err_id a) (err_id b))
  | VSlice _, VSlice _ => None
  | VMap _, VMap _ => None
  | _, _ => Some false
  end.

(** ** Errors returned by the program *)

(** The value of a Go [error] that is not nil: an error object handed
    over by a library, or [fmt.Errorf format args...], kept as the call
    it is (the format string and the arguments in order). *)
Inductive error : Type :=
| LibError (e : ErrObj)
| Errorf (format : string) (args : list Value).

(** An [error] passed where an [interface{}] is expected: nil stays nil. *)
Definition error_as_value (err : option ErrObj) : Value :=
  match err with
  | None => VNil
  | Some e => VError e
  end.

(** ** Results, panics and the log *)

Inductive Res (A : Type) : Type :=
| Ret (a : A)
| Panic (reason : string).
Arguments Ret {A} a.
Arguments Panic {A} reason.

Inductive Level : Type := TraceLevel | InfoLevel | ErrorLevel.

(** One zerolog event: [log.Error().Err(err).Str(k, v).Msg(msg)]. *)
Record LogLine : Type := mkLine {
  log_level : Level;
  log_err : option error;
  log_str : list (string * string);
  log_msg : string
}.

(** ** Effects

    A computation runs on a world [W] (everything a closure or the
    endpoint may read and change), appends lines to the log and returns
    or panics. *)

Record Out (W A : Type) : Type := mkOut {
  res : Res A;
  logged : list LogLine;
  world : W
}.

Definition M (W A : Type) : Type := W -> Out W A.

Definition ret {W A} (a : A) : M W A :=
  fun w => mkOut (Ret a) [] w.

Definition bind {W A B} (m : M W A) (k : A -> M W B) : M W B :=
  fun w =>
    let o := m w in
    match res o with
    | Ret a =>
        let o' := k a (world o) in
        mkOut (res o') (logged o ++ logged o') (world o')
    | Panic p => mkOut (Panic p) (logged o) (world o)
    end.

Definition emit {W} (l : LogLine) : M W unit :=
  fun w => mkOut (Ret tt) [l] w.

Declare Scope go_scope.
Delimit Scope go_scope with go.
Notation "x <- m ;; k" := (bind m (fun x => k))
  (at level 61, m at next level, right associativity) : go_scope.
Notation "m ;; k" := (bind m (fun _ => k))
  (at level 61, right associativity) : go_scope.
Open Scope go_scope.

(** The type [func(result interface{}) error]: a closure applied to the
    observed value; it may change the world, return nil ([None]) or an
    error, or panic.  It does not write to the log. *)
Definition ValidatorFunc (W : Type) : Type :=
  Value -> W -> Res (option error) * W.

(** A call of a validator inside the engine. *)
Definition call_validator {W} (v : ValidatorFunc W) (x : Value)
  : M W (option error) :=
  fun w => let '(r, w') := v x w in mkOut r [] w'.

(** ** The imported packages *)

(** Package [regexp]: [MustCompile] panics on a pattern it cannot parse
    ([None]); [MatchString] reports whether the string contains a match
    of the expression. *)
Class RegexLib : Type := {
  Regexp : Type;
  MustCompile : string -> option Regexp;
  MatchString : Regexp -> string -> bool
}.

(** [json.Marshal], and [gojsonschema.Validate] on two string loaders
    (the schema, then the document).  A result of [Validate] is the
    list of its violations, each given by what its [String] method
    returns; [Valid] holds when the list is empty. *)
Class JSONLib : Type := {
  Marshal : Value -> ErrObj + string;
  SchemaValidate : string -> string -> ErrObj + list string
}.

Definition Valid (violations : list string) : bool :=
  match violations with
  | [] => true
  | _ :: _ => false
  end.

(** Package [rpctypes] of this repository: the three schema documents
    the catalog refers to. *)
Class RPCTypes : Type := {
  RPCSchemaEthSyncing : string;
  RPCSchemaAccountList : string;
  RPCSchemaEthBlock : string
}.

(** [go-ethereum]'s [crypto] and [common]: keys and addresses.
    [AddressString] is [Address.String]. *)
Class EthLib : Type := {
  PrivateKey : Type;
  Address : Type;
  ZeroAddress : Address;
  HexToECDSA : string -> ErrObj + PrivateKey;
  PubkeyToAddress : PrivateKey -> Address;
  AddressString : Address -> string
}.

(** What one [CallContext] yields: the decoded result, or an error. *)
Inductive CallOutcome : Type :=
| CallOk (result : Value)
| CallErr (e : ErrObj).

(** [go-ethereum]'s [rpc] client on the world [W]. *)
Class RPCLib (W : Type) : Type := {
  Client : Type;
  DialContext : string -> W -> (ErrObj + Client) * W;
  CallContext : Client -> string -> list Value -> W -> CallOutcome * W
}.

(** ** Validator strategies and the chain combinator *)

Definition LF : string := String "010"%char EmptyString.

Section Validators.
Context {W : Type} {regexp : RegexLib} {json : JSONLib}.

(** The loop of the closure [ChainValidator] returns. *)
Fixpoint chain_loop (validators : list (ValidatorFunc W)) (result : Value)
  (w : W) : Res (option error) * W :=
  match validators with
  | [] => (Ret (Some (Errorf "All Validation failed" [])), w)
  | v :: rest =>
      match v result w with
      | (Ret None, w') => (Ret None, w')
      | (Ret (Some _), w') => chain_loop rest result w'
      | (Panic p, w') => (Panic p, w')
      end
  end.

Definition ChainValidator (validators : list (ValidatorFunc W))
  : ValidatorFunc W :=
  fun result w => chain_loop validators result w.

(** [errStr += desc.String() + "\n"] over the violations. *)
Definition violations_text (violations : list string) : string :=
  fold_left (fun errStr desc => (errStr ++ (desc ++ LF))%string)
    violations "".

Definition ValidateJSONSchema (schema : string) : ValidatorFunc W :=
  fun result w =>
    match Marshal result with
    | inl err =>
        (Ret (Some (Errorf
           "Unable to marshal result back to json for validation: %w"
           [VError err])), w)
    | inr jsonBytes =>
        match SchemaValidate schema jsonBytes with
        | inl err =>
            (Ret (Some (Errorf "Unable to run json validation: %w"
                          [VError err])), w)
        | inr validatorResult =>
            if negb (Valid validatorResult)
            then (Ret (Some (Errorf "The json document is not valid: %s"
                               [VString (violations_text validatorResult)])),
                  w)
            else (Ret None, w)
        end
    end.

Definition ValidateExact (expected : Value) : ValidatorFunc W :=
  fun result w =>
    match go_eq expected result with
    | None => (Panic "runtime error: comparing uncomparable type", w)
    | Some false =>
        (Ret (Some (Errorf "Expected %v and got %v" [expected; result])), w)
    | Some true => (Ret None, w)
    end.

(** The expression is compiled when the validator is built, so the
    panic of [MustCompile] is one of the constructor. *)
Definition ValidateRegexString (regEx : string) : Res (ValidatorFunc W) :=
  match MustCompile regEx with
  | None => Panic "regexp: Compile: error parsing regexp"
  | Some r =>
      Ret (fun result w =>
             match result with
             | VString resultStr =>
                 if negb (MatchString r resultStr)
                 then (Ret (Some (Errorf
                         "The regex %s failed to match result %s"
                         [VString regEx; VString resultStr])), w)
                 else (Ret None, w)
             | _ =>
                 (Ret (Some (Errorf
                    "Invalid result type. Expected string but got %T"
                    [result])), w)
             end)
  end.

Definition ValidateError (errorMessageRegex : string)
  : Res (ValidatorFunc W) :=
  match MustCompile errorMessageRegex with
  | None => Panic "regexp: Compile: error parsing regexp"
  | Some r =>
      Ret (fun result w =>
             match result with
             | VError resultError =>
                 if negb (MatchString r (Error resultError))
                 then (Ret (Some (Errorf
                         "The regex %s failed to match result %s"
                         [VString errorMessageRegex;
                          VString (Error resultError)])), w)
                 else (Ret None, w)
             | _ =>
                 (Ret (Some (Errorf
                    "Invalid result type. Expected error but got %T"
                    [result])), w)
             end)
  end.

End Validators.

(** ** Test cases *)

(** The interface [RPCTest], as the methods of one value of it. *)
Record RPCTest (W : Type) : Type := mkRPCTest {
  GetMethod : string;
  GetArgs : list Value;
  Validate : ValidatorFunc W;
  ExpectError : bool
}.

(** The struct [RPCTestGeneric]; the zero value of a func field is nil. *)
Record RPCTestGeneric (W : Type) : Type := mkGeneric {
  Method : string;
  Args : list Value;
  Validator : option (ValidatorFunc W);
  IsError : bool
}.

Definition zero_RPCTestGeneric {W} : RPCTestGeneric W :=
  mkGeneric "" [] None false.

(** The four methods of [*RPCTestGeneric]. *)
Definition RPCTestGeneric_Validate {W} (r : RPCTestGeneric W)
  : ValidatorFunc W :=
  fun result w =>
    match Validator r with
    | Some v => v result w
    | None =>
        (Panic "runtime error: invalid memory address or nil pointer dereference",
         w)
    end.

Definition as_RPCTest {W} (r : RPCTestGeneric W) : RPCTest W :=
  {| GetMethod := Method r;
     GetArgs := Args r;
     Validate := RPCTestGeneric_Validate r;
     ExpectError := IsError r |}.

(** ** The loop of [RunE] *)

Definition line_running (method : string) : LogLine :=
  mkLine TraceLevel None [("method", method)] "Running Test".

Definition line_call_failed (err : ErrObj) (method : string) : LogLine :=
  mkLine ErrorLevel (Some (LibError err)) [("method", method)]
    "Method test failed".

Definition line_invalid (err : error) (method : string) : LogLine :=
  mkLine ErrorLevel (Some err) [("method", method)] "Failed to validate".

Definition line_valid (method : string) : LogLine :=
  mkLine InfoLevel None [("method", method)] "Successfully validated".

Definition line_bad_key (err : ErrObj) : LogLine :=
  mkLine ErrorLevel (Some (LibError err)) []
    "Couldn't process the hex private key".

Definition line_loaded (ethAddress : string) : LogLine :=
  mkLine InfoLevel None [("ethAddress", ethAddress)] "Loaded private key".

Definition line_setup : LogLine :=
  mkLine TraceLevel None [] "Doing test setup".

Section Engine.
Context {W : Type} {rpc : RPCLib W}.

Definition call_context (c : Client) (method : string) (args : list Value)
  : M W CallOutcome :=
  fun w => let '(o, w') := CallContext c method args w in mkOut (Ret o) [] w'.

(** The body of the loop, for the test [t]. *)
Definition run_test (rpcClient : Client) (t : RPCTest W) : M W unit :=
  emit (line_running (GetMethod t)) ;;
  o <- call_context rpcClient (GetMethod t) (GetArgs t) ;;
  let result := match o with CallOk v => v | CallErr _ => VNil end in
  let err := match o with CallOk _ => None | CallErr e => Some e end in
  match err, ExpectError t with
  | Some e, false => emit (line_call_failed e (GetMethod t))
  | _, _ =>
      verr <- call_validator (Validate t)
                (if ExpectError t then error_as_value err else result) ;;
      match verr with
      | Some e => emit (line_invalid e (GetMethod t))
      | None => emit (line_valid (GetMethod t))
      end
  end.

Fixpoint RunE_loop (rpcClient : Client) (tests : list (RPCTest W))
  : M W unit :=
  match tests with
  | [] => ret tt
  | t :: rest => run_test rpcClient t ;; RunE_loop rpcClient rest
  end.

End Engine.

(** ** Package-level variables *)

(** The 25 variables of type [RPCTestGeneric]; [allTests] holds pointers
    to them, and a constructor below stands for the address of the
    variable of that name. *)
Inductive TestVar : Type :=
| RPCTestNetVersion
| RPCTestWeb3ClientVersion
| RPCTestWeb3SHA3
| RPCTestWeb3SHA3Error
| RPCTestNetListening
| RPCTestNetPeerCount
| RPCTestEthProtocolVersion
| RPCTestEthSyncing
| RPCTestEthCoinbase
| RPCTestEthChainID
| RPCTestEthMining
| RPCTestEthHashrate
| RPCTestEthGasPrice
| RPCTestEthAccounts
| RPCTestEthBlockNumber
| RPCTestEthGetBalanceLatest
| RPCTestEthGetBalanceEarliest
| RPCTestEthGetBalancePending
| RPCTestEthGetStorageAtLatest
| RPCTestEthGetStorageAtEarliest
| RPCTestEthGetStorageAtPending
| RPCTestEthGetTransactionCountAtLatest
| RPCTestEthGetTransactionCountAtEarliest
| RPCTestEthGetTransactionCountAtPending
| RPCTestEthBlockByNumber.

Definition TestVar_eq_dec (p q : TestVar) : {p = q} + {p <> q}.
Proof. decide equality. Defined.

Definition bindR {A B} (m : Res A) (k : A -> Res B) : Res B :=
  match m with
  | Ret a => k a
  | Panic p => Panic p
  end.

Notation "x <-- m ;; k" := (bindR m (fun x => k))
  (at level 61, m at next level, right associativity) : go_scope.

(** [strings.ToLower] on ASCII text (addresses are hexadecimal). *)
Definition lower_ascii (c : ascii) : ascii :=
  let n := nat_of_ascii c in
  if ((65 <=? n) && (n <=? 90))%nat then ascii_of_nat (n + 32) else c.

Fixpoint ToLower (s : string) : string :=
  match s with
  | EmptyString => EmptyString
  | String c s' => String (lower_ascii c) (ToLower s')
  end.

(** The slice expression [s[n:]]: it panics when [n] exceeds [len(s)]. *)
Definition slice_from (n : nat) (s : string) : Res string :=
  if (n <=? String.length s)%nat
  then Ret (substring n (String.length s - n) s)
  else Panic "runtime error: slice bounds out of range".

Section Program.
Context (W : Type) {regexp : RegexLib} {json : JSONLib}
  {rpctypes : RPCTypes} {eth : EthLib} {rpc : RPCLib W}.

Record Globals : Type := mkGlobals {
  testPrivateHexKey : string;
  testContractAddress : string;
  testPrivateKey : option PrivateKey;
  testEthAddress : Address;
  vars : TestVar -> RPCTestGeneric W;
  allTests : list TestVar
}.

(** The state when [main] starts, after [init] and the parsing of the
    two flags: no key loaded, every test variable zero, [allTests]
    empty. *)
Definition initial_globals (privateKeyFlag contractFlag : string)
  : Globals :=
  {| testPrivateHexKey := privateKeyFlag;
     testContractAddress := contractFlag;
     testPrivateKey := None;
     testEthAddress := ZeroAddress;
     vars := fun _ => zero_RPCTestGeneric;
     allTests := [] |}.

(** [X = RPCTestGeneric{...}] followed by
    [allTests = append(allTests, &X)]. *)
Definition declare (p : TestVar) (r : RPCTestGeneric W) (g : Globals)
  : Globals :=
  {| testPrivateHexKey := testPrivateHexKey g;
     testContractAddress := testContractAddress g;
     testPrivateKey := testPrivateKey g;
     testEthAddress := testEthAddress g;
     vars := fun q => if TestVar_eq_dec q p then r else vars g q;
     allTests := allTests g ++ [p] |}.

(** The interface value stored in [allTests] for the pointer [p]: its
    methods read the variable. *)
Definition deref (g : Globals) (p : TestVar) : RPCTest W :=
  as_RPCTest (vars g p).

(** A composite literal [RPCTestGeneric{...}] whose validator is built
    by a constructor that may panic. *)
Definition generic (method : string) (args : list Value) (isError : bool)
  (validator : Res (ValidatorFunc W)) : Res (RPCTestGeneric W) :=
  v <-- validator ;; Ret (mkGeneric method args (Some v) isError).

(** The pattern of the two storage tests that read the sender back:
    [`^0x000000000000000000000000` +
     strings.ToLower(testEthAddress.String())[2:] + `$`]. *)
Definition storage_pattern (g : Globals) : Res string :=
  tail <-- slice_from 2 (ToLower (AddressString (testEthAddress g))) ;;
  Ret ("^0x000000000000000000000000" ++ tail ++ "$")%string.

(** The statements of [setupTests], in order: the variable assigned and
    the literal assigned to it. *)
Definition catalog (g : Globals) : list (TestVar * Res (RPCTestGeneric W)) :=
  let address := VString (AddressString (testEthAddress g)) in
  let contract := VString (testContractAddress g) in
  [ (RPCTestNetVersion,
     generic "net_version" [] false (ValidateRegexString "^\d*$"));
    (RPCTestWeb3ClientVersion,
     generic "web3_clientVersion" [] false
       (ValidateRegexString "^[[:print:]]*$"));
    (RPCTestWeb3SHA3,
     generic "web3_sha3" [VString "0x68656c6c6f20776f726c64"] false
       (ValidateRegexString
          "0x47173285a8d7341e5e972fc677286384f802f8ef42a5ec5f03bbfa254cb01fad"));
    (RPCTestWeb3SHA3Error,
     generic "web3_sha3" [VString "68656c6c6f20776f726c64"] true
       (ValidateError "cannot unmarshal hex string without 0x prefix"));
    (RPCTestNetListening,
     generic "net_listening" [] false (Ret (ValidateExact (VBool true))));
    (RPCTestNetPeerCount,
     generic "net_peerCount" [] false
       (ValidateRegexString "^0x[[:xdigit:]]*$"));
    (RPCTestEthProtocolVersion,
     generic "eth_protocolVersion" [] true
       (ValidateError "method eth_protocolVersion does not exist"));
    (RPCTestEthSyncing,
     generic "eth_syncing" [] false
       (Ret (ChainValidator
               [ValidateExact (VBool false);
                ValidateJSONSchema RPCSchemaEthSyncing])));
    (RPCTestEthCoinbase,
     generic "eth_coinbase" [] false
       (ValidateRegexString "^0x[[:xdigit:]]{40}$"));
    (RPCTestEthChainID,
     generic "eth_chainId" [] false
       (ValidateRegexString "^0x[[:xdigit:]]{1,}$"));
    (RPCTestEthMining,
     generic "eth_mining" [] false
       (Ret (ChainValidator
               [ValidateExact (VBool true); ValidateExact (VBool false)])));
    (RPCTestEthHashrate,
     generic "eth_hashrate" [] false
       (ValidateRegexString "^0x[[:xdigit:]]{1,}$"));
    (RPCTestEthGasPrice,
     generic "eth_gasPrice" [] false
       (ValidateRegexString "^0x[[:xdigit:]]{1,}$"));
    (RPCTestEthAccounts,
     generic "eth_accounts" [] false
       (Ret (ValidateJSONSchema RPCSchemaAccountList)));
    (RPCTestEthBlockNumber,
     generic "eth_blockNumber" [] false
       (ValidateRegexString "^0x[[:xdigit:]]{1,}$"));
    (RPCTestEthGetBalanceLatest,
     generic "eth_getBalance" [address; VString "latest"] false
       (ValidateRegexString "^0x[[:xdigit:]]{1,}$"));
    (RPCTestEthGetBalanceEarliest,
     generic "eth_getBalance" [address; VString "earliest"] false
       (ValidateRegexString "^0x[[:xdigit:]]{1,}$"));
    (RPCTestEthGetBalancePending,
     generic "eth_getBalance" [address; VString "pending"] false
       (ValidateRegexString "^0x[[:xdigit:]]{1,}$"));
    (RPCTestEthGetStorageAtLatest,
     generic "eth_getStorageAt"
       [contract; VString "0x3"; VString "latest"] false
       (pattern <-- storage_pattern g ;; ValidateRegexString pattern));
    (RPCTestEthGetStorageAtEarliest,
     generic "eth_getStorageAt"
       [contract; VString "0x3"; VString "earliest"] false
       (ValidateRegexString "^0x0{64}"));
    (RPCTestEthGetStorageAtPending,
     generic "eth_getStorageAt"
       [contract; VString "0x3"; VString "pending"] false
       (pattern <-- storage_pattern g ;; ValidateRegexString pattern));
    (RPCTestEthGetTransactionCountAtLatest,
     generic "eth_getTransactionCount" [address; VString "latest"] false
       (ValidateRegexString "^0x[[:xdigit:]]{1,}$"));
    (RPCTestEthGetTransactionCountAtEarliest,
     generic "eth_getTransactionCount" [address; VString "earliest"] false
       (ValidateRegexString "^0x0$"));
    (RPCTestEthGetTransactionCountAtPending,
     generic "eth_getTransactionCount" [address; VString "pending"] false
       (ValidateRegexString "^0x[[:xdigit:]]{1,}$"));
    (RPCTestEthBlockByNumber,
     generic "eth_getBlockByNumber" [VString "0x0"; VBool true] false
       (Ret (ValidateJSONSchema RPCSchemaEthBlock))) ].

(** One statement pair of [setupTests]: evaluate the literal (which may
    panic), assign it and append the pointer. *)
Definition setup_step (acc : Res Globals)
  (entry : TestVar * Res (RPCTestGeneric W)) : Res Globals :=
  g <-- acc ;; r <-- snd entry ;; Ret (declare (fst entry) r g).

Definition setupTests (g : Globals) : Res Globals :=
  fold_left setup_step (catalog g) (Ret g).

(** ** The command *)

Definition set_key (privateKey : PrivateKey) (ethAddress : Address)
  (g : Globals) : Globals :=
  {| testPrivateHexKey := testPrivateHexKey g;
     testContractAddress := testContractAddress g;
     testPrivateKey := Some privateKey;
     testEthAddress := ethAddress;
     vars := vars g;
     allTests := allTests g |}.

(** [RPCFuzzCmd.Args]: the returned error and the variables it leaves. *)
Definition RPCFuzzCmd_Args (args : list string) (g : Globals)
  : M W (option error * Globals) :=
  if negb (List.length args =? 1)%nat
  then ret (Some (Errorf "Expected 1 argument, but got %d"
                    [VInt (Z.of_nat (List.length args))]), g)
  else
    match HexToECDSA (testPrivateHexKey g) with
    | inl err =>
        emit (line_bad_key err) ;;
        ret (Some (LibError err), g)
    | inr privateKey =>
        let ethAddress := PubkeyToAddress privateKey in
        emit (line_loaded (AddressString ethAddress)) ;;
        ret (None, set_key privateKey ethAddress g)
    end.

Definition dial_context (url : string) : M W (ErrObj + Client) :=
  fun w => let '(d, w') := DialContext url w in mkOut (Ret d) [] w'.

Definition panic {A} (reason : string) : M W A :=
  fun w => mkOut (Panic reason) [] w.

Definition lift_res {A} (r : Res A) : M W A :=
  fun w => mkOut r [] w.

(** [RPCFuzzCmd.RunE]. *)
Definition RPCFuzzCmd_RunE (args : list string) (g : Globals)
  : M W (option error * Globals) :=
  match args with
  | [] => panic "runtime error: index out of range [0] with length 0"
  | url :: _ =>
      d <- dial_context url ;;
      match d with
      | inl err => ret (Some (LibError err), g)
      | inr rpcClient =>
          emit line_setup ;;
          g' <- lift_res (setupTests g) ;;
          RunE_loop rpcClient (map (deref g') (allTests g')) ;;
          ret (None, g')
      end
  end.

(** How cobra runs the command: the positional arguments are validated
    by [Args], and [RunE] is called when [Args] returned nil.  The
    error of either is the result of the run. *)
Definition Execute (args : list string) (g : Globals)
  : M W (option error * Globals) :=
  a <- RPCFuzzCmd_Args args g ;;
  match fst a with
  | Some err => ret (Some err, snd a)
  | None => RPCFuzzCmd_RunE args (snd a)
  end.

End Program.

(** ** Reading the log *)

Inductive Verdict : Type := Success | CallFailure | ValidationFailure.

Definition method_of (l : LogLine) : string :=
  match log_str l with
  | (_, m) :: _ => m
  | [] => ""
  end.

(** The verdict a line of the loop carries; the line that announces a
    test, and the lines of the setup, carry none. *)
Definition verdict_of_line (l : LogLine) : option (string * Verdict) :=
  if String.eqb (log_msg l) "Successfully validated"
  then Some (method_of l, Success)
  else if String.eqb (log_msg l) "Method test failed"
  then Some (method_of l, CallFailure)
  else if String.eqb (log_msg l) "Failed to validate"
  then Some (method_of l, ValidationFailure)
  else None.

Fixpoint verdicts (log : list LogLine) : list (string * Verdict) :=
  match log with
  | [] => []
  | l :: rest =>
      match verdict_of_line l with
      | Some v => v :: verdicts rest
      | None => verdicts rest
      end
  end.

(** The number of tests the loop has started. *)
Definition started (log : list LogLine) : nat :=
  List.length
    (filter (fun l => String.eqb (log_msg l) "Running Test") log).

(** ** Test doubles

    Instances of the interfaces on which the definitions run. *)

(** A world for tests: the outcomes the endpoint will give, one per
    call, and a counter that instrumented validators advance. *)
Record TestWorld : Type := mkTestWorld {
  script : list CallOutcome;
  invocations : nat
}.

Definition script_exhausted : ErrObj := mkErr 0 "EOF".

#[export] Instance ScriptedRPC : RPCLib TestWorld := {|
  Client := unit;
  DialContext := fun _ w => (inr tt, w);
  CallContext := fun _ _ _ w =>
    match script w with
    | [] => (CallErr script_exhausted, w)
    | o :: rest => (o, mkTestWorld rest (invocations w))
    end
|}.

(** A validator that counts its invocations. *)
Definition counting (v : ValidatorFunc TestWorld) : ValidatorFunc TestWorld :=
  fun result w => v result (mkTestWorld (script w) (S (invocations w))).

(** A validator that must not be reached. *)
Definition exploding : ValidatorFunc TestWorld :=
  fun _ w => (Panic "unreachable", w).

Fixpoint contains (needle s : string) : bool :=
  if String.prefix needle s then true
  else match s with
       | EmptyString => false
       | String _ s' => contains needle s'
       end.

(** An engine that takes every pattern literally: it compiles, and it
    matches the strings in which it occurs.  This is package [regexp]
    on the patterns without metacharacters. *)
Definition LiteralRegex : RegexLib := {|
  Regexp := string;
  MustCompile := fun p => Some p;
  MatchString := fun p s => contains p s
|}.

Definition dquote : string := String "034"%char EmptyString.

(** The schema document [{"type":"boolean"}]. *)
Definition boolean_schema : string :=
  ("{" ++ dquote ++ "type" ++ dquote ++ ":" ++ dquote ++ "boolean"
     ++ dquote ++ "}")%string.

(** A marshaller for nil, booleans and strings without escapes, and a
    schema checker that knows the schema of a boolean. *)
Definition BoolJSON : JSONLib := {|
  Marshal := fun v =>
    match v with
    | VNil => inr "null"
    | VBool true => inr "true"
    | VBool false => inr "false"
    | VString s => inr (dquote ++ s ++ dquote)%string
    | _ => inl (mkErr 1 "json: unsupported type")
    end;
  SchemaValidate := fun schema doc =>
    if String.eqb schema boolean_schema
    then if String.eqb doc "true" || String.eqb doc "false"
         then inr []
         else inr ["(root): Invalid type. Expected: boolean, given: "
                     ++ doc]%string
    else inl (mkErr 2 "unsupported schema")
|}.

Definition BoolSchemas : RPCTypes := {|
  RPCSchemaEthSyncing := boolean_schema;
  RPCSchemaAccountList := boolean_schema;
  RPCSchemaEthBlock := boolean_schema
|}.

(** Keys are 64 characters long; the address of a key is [0x] followed
    by its last 40 characters. *)
Definition SuffixEth : EthLib := {|
  PrivateKey := string;
  Address := string;
  ZeroAddress := "0x0000000000000000000000000000000000000000";
  HexToECDSA := fun hex =>
    if (String.length hex =? 64)%nat then inr hex
    else inl (mkErr 3 "invalid length, need 256 bits");
  PubkeyToAddress := fun key => ("0x" ++ substring 24 40 key)%string;
  AddressString := fun a => a
|}.

(** The default of the flag [private-key]. *)
Definition codeQualityPrivateKey : string :=
  "42b6e34dc21598a807dc19d7784c71b2a7a01f6480dc6f58258f78e539f1a1fa".

(** The default of the flag [contract-address]. *)
Definition defaultContractAddress : string :=
  "0x6fda56c57b0acadb96ed5624ac500c0429d59429".

(** The configuration of the test doubles: the default flags. *)
Definition double_globals : Globals TestWorld :=
  initial_globals (eth := SuffixEth) TestWorld
    codeQualityPrivateKey defaultContractAddress.

(** The error test of [web3_sha3] on the test doubles. *)
Definition error_regex (pattern : string) : ValidatorFunc TestWorld :=
  match ValidateError (regexp := LiteralRegex) pattern with
  | Ret v => v
  | Panic _ => exploding
  end.

Definition Web3SHA3Error_double : RPCTest TestWorld :=
  mkRPCTest "web3_sha3" [VString "68656c6c6f20776f726c64"]
    (error_regex "cannot unmarshal hex string without 0x prefix") true.

Definition Web3SHA3Error_counted : RPCTest TestWorld :=
  mkRPCTest "web3_sha3" [VString "68656c6c6f20776f726c64"]
    (counting (error_regex "cannot unmarshal hex string without 0x prefix"))
    true.

Definition sha3_error : ErrObj :=
  mkErr 7
    "invalid argument 0: json: cannot unmarshal hex string without 0x prefix into Go value of type hexutil.Bytes".

Definition sha3_digest : Value :=
  VString "0x47173285a8d7341e5e972fc677286384f802f8ef42a5ec5f03bbfa254cb01fad".

(** Three tests, the first of which meets an error it does not expect:
    the second and the third are run and recorded all the same. *)
Definition three_tests : list (RPCTest TestWorld) :=
  [ mkRPCTest "net_listening" [] (ValidateExact (VBool true)) false;
    Web3SHA3Error_double;
    mkRPCTest "eth_mining" []
      (ChainValidator [ValidateExact (VBool true);
                       ValidateExact (VBool false)]) false ].

Definition connection_refused : ErrObj :=
  mkErr 9 "dial tcp 127.0.0.1:8545: connect: connection refused".

(** ** Vocabulary of the properties *)

(** Every validator of the list fails on [x], one after the other: the
    world each leaves is the one the next starts from. *)
Inductive all_fail {W : Type}
  : list (ValidatorFunc W) -> Value -> W -> W -> Prop :=
| all_fail_nil : forall x w, all_fail [] x w w
| all_fail_cons : forall v vs x w w1 w2 e,
    v x w = (Ret (Some e), w1) ->
    all_fail vs x w1 w2 ->
    all_fail (v :: vs) x w w2.

(** A validator that always returns (nil or an error). *)
Definition returns {W : Type} (v : ValidatorFunc W) : Prop :=
  forall x w, exists r w', v x w = (Ret r, w').

(** A validator whose answer is a function of the observed value and
    that leaves the world as it is. *)
Definition stateless {W : Type} (v : ValidatorFunc W) : Prop :=
  exists f : Value -> option error, forall x w, v x w = (Ret (f x), w).

(** Strict equality of an expected primitive and an observed value:
    the same dynamic type and the same value (for float64, the
    equality of IEEE 754). *)
Definition strictly_equal (expected observed : Value) : Prop :=
  match expected, observed with
  | VFloat64 a, VFloat64 b => PrimFloat.eqb a b = true
  | _, _ => observed = expected
  end.

(** The descriptions of the violations, each followed by a line feed,
    one after the other. *)
Fixpoint concat_violations (violations : list string) : string :=
  match violations with
  | [] => ""
  | desc :: rest => (desc ++ LF ++ concat_violations rest)%string
  end.

(** The verdict of a test whose call had the outcome [o], when its
    validator is stateless. *)
Definition verdict_of_validation (r : Res (option error)) : Verdict :=
  match r with
  | Ret None => Success
  | _ => ValidationFailure
  end.

Definition expected_verdict (t : RPCTest TestWorld) (o : CallOutcome)
  : string * Verdict :=
  let w0 := mkTestWorld [] 0 in
  (GetMethod t,
   match o with
   | CallErr e =>
       if ExpectError t
       then verdict_of_validation (fst (Validate t (VError e) w0))
       else CallFailure
   | CallOk x =>
       verdict_of_validation
         (fst (Validate t (if ExpectError t then VNil else x) w0))
   end).

(** The value the loop hands to the validator of [t] after a call with
    the outcome [o]: the error if one is expected (nil when there is
    none), the result otherwise. *)
Definition observed {W : Type} (t : RPCTest W) (o : CallOutcome) : Value :=
  match o with
  | CallErr e => VError e
  | CallOk x => if ExpectError t then VNil else x
  end.

(** What a failed setup is: the error the run returns, and its cause. *)
Inductive SetupFailure {W : Type} {eth : EthLib} {rpc : RPCLib W}
  (args : list string) (g : Globals W) (w : W) : error -> Prop :=
| BadArguments :
    List.length args <> 1 ->
    SetupFailure args g w
      (Errorf "Expected 1 argument, but got %d"
         [VInt (Z.of_nat (List.length args))])
| BadPrivateKey : forall err,
    List.length args = 1 ->
    HexToECDSA (testPrivateHexKey g) = inl err ->
    SetupFailure args g w (LibError err)
| NoConnection : forall url key err w',
    args = [url] ->
    HexToECDSA (testPrivateHexKey g) = inr key ->
    DialContext url w = (inl err, w') ->
    SetupFailure args g w (LibError err).

(** The pointers [setupTests] appends, in order. *)
Definition catalog_vars : list TestVar :=
  [ RPCTestNetVersion; RPCTestWeb3ClientVersion; RPCTestWeb3SHA3;
    RPCTestWeb3SHA3Error; RPCTestNetListening; RPCTestNetPeerCount;
    RPCTestEthProtocolVersion; RPCTestEthSyncing; RPCTestEthCoinbase;
    RPCTestEthChainID; RPCTestEthMining; RPCTestEthHashrate;
    RPCTestEthGasPrice; RPCTestEthAccounts; RPCTestEthBlockNumber;
    RPCTestEthGetBalanceLatest; RPCTestEthGetBalanceEarliest;
    RPCTestEthGetBalancePending; RPCTestEthGetStorageAtLatest;
    RPCTestEthGetStorageAtEarliest; RPCTestEthGetStorageAtPending;
    RPCTestEthGetTransactionCountAtLatest;
    RPCTestEthGetTransactionCountAtEarliest;
    RPCTestEthGetTransactionCountAtPending; RPCTestEthBlockByNumber ].

(** No literal of [setupTests] panics when evaluated: every pattern
    compiles and the address has its two leading characters. *)
Definition literals_evaluate {W : Type} {regexp : RegexLib} {json : JSONLib}
  {rpctypes : RPCTypes} {eth : EthLib} (g : Globals W) : Prop :=
  Forall (fun entry => exists r, snd entry = Ret r) (catalog g).

(** A test variable whose validator is set and stateless. *)
Definition well_formed {W : Type} (r : RPCTestGeneric W) : Prop :=
  exists v, Validator r = Some v /\ stateless v.

(** A constructor that, when it returns, returns a stateless validator. *)
Definition builds_stateless {W : Type} (c : Res (ValidatorFunc W)) : Prop :=
  forall v, c = Ret v -> stateless v.

(** * Properties *)

Unset Implicit Arguments.

(** ** The chain combinator *)

Section ChainFacts.
Context {W : Type}.
Implicit Types (v : ValidatorFunc W)
  (vs pre post rest : list (ValidatorFunc W)).

Lemma chain_loop_all_fail vs x w w' :
  all_fail vs x w w' ->
  chain_loop vs x w = (Ret (Some (Errorf "All Validation failed" [])), w').
Proof.
  induction 1 as [|v vs x w w1 w2 e Hv _ IH]; simpl.
  - reflexivity.
  - rewrite Hv. exact IH.
Qed.

Lemma chain_loop_skip pre rest x w w1 :
  all_fail pre x w w1 ->
  chain_loop (pre ++ rest) x w = chain_loop rest x w1.
Proof.
  induction 1 as [|v vs x w w1 w2 e Hv _ IH]; simpl.
  - reflexivity.
  - rewrite Hv. exact IH.
Qed.

Lemma chain_loop_returns vs :
  Forall returns vs -> returns (chain_loop vs).
Proof.
  induction 1 as [|v vs Hv _ IH]; intros x w; simpl.
  - eauto.
  - destruct (Hv x w) as (r & w' & ->).
    destruct r as [e|]; eauto.
Qed.

Lemma chain_loop_stateless vs :
  Forall stateless vs -> stateless (chain_loop vs).
Proof.
  induction 1 as [|v vs [f Hf] _ [g Hg]].
  - exists (fun _ => Some (Errorf "All Validation failed" [])).
    reflexivity.
  - exists (fun x => match f x with None => None | Some _ => g x end).
    intros x w. simpl. rewrite Hf. destruct (f x); auto.
Qed.

(** C9: [ChainValidator] accepts the empty sequence, and the validator
    it returns then fails on every observed value with the diagnostic
    [All Validation failed]. *)
Theorem ChainValidator_empty (x : Value) (w : W) :
  ChainValidator [] x w
  = (Ret (Some (Errorf "All Validation failed" [])), w).
Proof. reflexivity. Qed.

(** C3: when every validator of the sequence fails on the observed
    value, the chain fails with the one generic diagnostic, in which no
    diagnostic of a member appears, whatever the length of the
    sequence. *)
Theorem ChainValidator_exhausted vs (x : Value) (w w' : W) :
  all_fail vs x w w' ->
  ChainValidator vs x w
  = (Ret (Some (Errorf "All Validation failed" [])), w').
Proof. apply chain_loop_all_fail. Qed.

(** C2: the validators are applied in order, and the first that
    succeeds ends the chain with success: the world is the one that
    validator leaves, so no later validator is invoked, and the later
    validators can be replaced by any others. *)
Theorem ChainValidator_short_circuit pre v post (x : Value) (w w1 w2 : W) :
  all_fail pre x w w1 ->
  v x w1 = (Ret None, w2) ->
  ChainValidator (pre ++ v :: post) x w = (Ret None, w2)
  /\ forall post',
       ChainValidator (pre ++ v :: post') x w
       = ChainValidator (pre ++ v :: post) x w.
Proof.
  intros Hpre Hv.
  assert (H : forall rest,
             ChainValidator (pre ++ v :: rest) x w = (Ret None, w2)).
  { intros rest. unfold ChainValidator.
    rewrite (chain_loop_skip pre (v :: rest) x w w1 Hpre). simpl.
    rewrite Hv. reflexivity. }
  split; [apply H | intros post'; rewrite !H; reflexivity].
Qed.

End ChainFacts.

(** The chain [[v1; v2]] of the test doubles: [v1] succeeds and is
    counted once, [v2] would panic and is not reached. *)
Lemma ChainValidator_short_circuit_witness :
  ChainValidator
    [counting (ValidateExact (VBool false));
     counting (ValidateExact (VBool true));
     exploding;
     counting (ValidateExact (VBool true))]
    (VBool true) (mkTestWorld [] 0)
  = (Ret None, mkTestWorld [] 2).
Proof.
  apply (@ChainValidator_short_circuit TestWorld
           [counting (ValidateExact (VBool false))]
           (counting (ValidateExact (VBool true)))
           [exploding; counting (ValidateExact (VBool true))]
           (VBool true) (mkTestWorld [] 0) (mkTestWorld [] 1)
           (mkTestWorld [] 2)).
  - eapply all_fail_cons; [reflexivity | apply all_fail_nil].
  - reflexivity.
Defined.

(** A chain of two counted validators that both reject [false]. *)
Lemma ChainValidator_exhausted_witness :
  ChainValidator
    [counting (ValidateExact (VBool true));
     counting (ValidateExact (VString "false"))]
    (VBool false) (mkTestWorld [] 0)
  = (Ret (Some (Errorf "All Validation failed" [])), mkTestWorld [] 2).
Proof.
  apply (@ChainValidator_exhausted TestWorld).
  eapply all_fail_cons; [reflexivity |].
  eapply all_fail_cons; [reflexivity |].
  apply all_fail_nil.
Defined.

(** ** Exact match *)

Lemma go_eq_primitive (expected observed : Value) :
  comparable_primitive expected = true ->
  go_eq expected observed = Some true
  \/ go_eq expected observed = Some false.
Proof.
  destruct expected; try discriminate; intros _;
    destruct observed; simpl; auto;
    match goal with |- context [Some ?b] => destruct b; auto end.
Qed.

Lemma go_eq_strictly_equal (expected observed : Value) :
  comparable_primitive expected = true ->
  go_eq expected observed = Some true <-> strictly_equal expected observed.
Proof.
  destruct expected; try discriminate; intros _;
    destruct observed; simpl;
    try (split; [discriminate | congruence]).
  - split; intros H.
    + injection H as H. apply Bool.eqb_prop in H. congruence.
    + injection H as ->. now rewrite Bool.eqb_reflx.
  - split; intros H.
    + injection H as H. apply Z.eqb_eq in H. congruence.
    + injection H as ->. now rewrite Z.eqb_refl.
  - split; intros H; congruence.
  - split; intros H.
    + injection H as H. apply String.eqb_eq in H. congruence.
    + injection H as ->. now rewrite String.eqb_refl.
Qed.

Lemma go_eq_type_mismatch (expected observed : Value) :
  comparable_primitive expected = true ->
  dyn_type observed <> dyn_type expected ->
  go_eq expected observed = Some false.
Proof.
  destruct expected; try discriminate; intros _;
    destruct observed; simpl; intros H; congruence.
Qed.

(** C4: for an expected value of a comparable primitive type,
    [ValidateExact] succeeds exactly when the observed value is
    strictly equal to it; otherwise it fails with a diagnostic that
    carries both values; an observed value of another dynamic type, a
    structured one in particular, is such a failure: it is not
    converted, and the comparison does not panic. *)
Theorem ValidateExact_spec {W : Type} (expected observed : Value) (w : W) :
  comparable_primitive expected = true ->
  (ValidateExact expected observed w = (Ret None, w)
   <-> strictly_equal expected observed)
  /\ (~ strictly_equal expected observed ->
      ValidateExact expected observed w
      = (Ret (Some (Errorf "Expected %v and got %v" [expected; observed])),
         w))
  /\ (dyn_type observed <> dyn_type expected ->
      ~ strictly_equal expected observed)
  /\ (structured observed = true ->
      ValidateExact expected observed w
      = (Ret (Some (Errorf "Expected %v and got %v" [expected; observed])),
         w)).
Proof.
  intros Hp.
  pose proof (go_eq_strictly_equal expected observed Hp) as Hiff.
  pose proof (go_eq_type_mismatch expected observed Hp) as Hty.
  assert (Hfail : ~ strictly_equal expected observed ->
      ValidateExact expected observed w
      = (Ret (Some (Errorf "Expected %v and got %v" [expected; observed])),
         w)).
  { intros Hne. unfold ValidateExact.
    destruct (go_eq_primitive expected observed Hp) as [E|E]; rewrite E.
    - elim Hne. now apply Hiff.
    - reflexivity. }
  assert (Hmis : dyn_type observed <> dyn_type expected ->
                 ~ strictly_equal expected observed).
  { intros Hd Heq. apply Hiff in Heq. rewrite (Hty Hd) in Heq.
    discriminate. }
  repeat split.
  - unfold ValidateExact.
    destruct (go_eq_primitive expected observed Hp) as [E|E]; rewrite E.
    + intros _. now apply Hiff.
    + discriminate.
  - intros Heq. unfold ValidateExact.
    apply Hiff in Heq. now rewrite Heq.
  - exact Hfail.
  - exact Hmis.
  - intros Hs. apply Hfail, Hmis.
    destruct expected; try discriminate;
      destruct observed; try discriminate; simpl; congruence.
Qed.

(** [ValidateExact(true)] on an observed [true], an observed [false]
    and a structured value. *)
Lemma ValidateExact_spec_witness :
  ValidateExact (VBool true) (VBool true) tt = (Ret None, tt)
  /\ ValidateExact (VBool true) (VBool false) tt
     = (Ret (Some (Errorf "Expected %v and got %v"
                     [VBool true; VBool false])), tt)
  /\ ValidateExact (VBool true) (VMap [("currentBlock", VString "0x1")]) tt
     = (Ret (Some (Errorf "Expected %v and got %v"
                     [VBool true; VMap [("currentBlock", VString "0x1")]])),
        tt).
Proof.
  split; [|split].
  - apply (proj1 (ValidateExact_spec (VBool true) (VBool true) tt eq_refl)).
    reflexivity.
  - apply (proj1 (proj2
             (ValidateExact_spec (VBool true) (VBool false) tt eq_refl))).
    intros H. discriminate H.
  - apply (proj2 (proj2 (proj2
             (ValidateExact_spec (VBool true)
                (VMap [("currentBlock", VString "0x1")]) tt eq_refl)))).
    reflexivity.
Defined.

(** ** Regular expressions on strings and on error messages *)

Section RegexFacts.
Context {W : Type} {regexp : RegexLib}.

Lemma ValidateRegexString_built (regEx : string) (v : ValidatorFunc W) :
  ValidateRegexString regEx = Ret v ->
  exists r, MustCompile regEx = Some r
    /\ forall x w,
         v x w
         = match x with
           | VString s =>
               if MatchString r s then (Ret None, w)
               else (Ret (Some (Errorf
                       "The regex %s failed to match result %s"
                       [VString regEx; VString s])), w)
           | _ =>
               (Ret (Some (Errorf
                  "Invalid result type. Expected string but got %T" [x])),
                w)
           end.
Proof.
  unfold ValidateRegexString.
  destruct (MustCompile regEx) as [r|]; [|discriminate].
  intros H. injection H as <-. exists r. split; [reflexivity|].
  intros x w. destruct x; try reflexivity.
  destruct (MatchString r s); reflexivity.
Qed.

Lemma ValidateError_built (pattern : string) (v : ValidatorFunc W) :
  ValidateError pattern = Ret v ->
  exists r, MustCompile pattern = Some r
    /\ forall x w,
         v x w
         = match x with
           | VError e =>
               if MatchString r (Error e) then (Ret None, w)
               else (Ret (Some (Errorf
                       "The regex %s failed to match result %s"
                       [VString pattern; VString (Error e)])), w)
           | _ =>
               (Ret (Some (Errorf
                  "Invalid result type. Expected error but got %T" [x])),
                w)
           end.
Proof.
  unfold ValidateError.
  destruct (MustCompile pattern) as [r|]; [|discriminate].
  intros H. injection H as <-. exists r. split; [reflexivity|].
  intros x w. destruct x; try reflexivity.
  destruct (MatchString r (Error e)); reflexivity.
Qed.

(** C5: for a pattern that compiles (with any other, [MustCompile]
    panics and no validator is returned), the validator succeeds
    exactly on the strings in which the expression has a match; on an
    observed value that is not a string it fails with the wrong-type
    diagnostic, and on a string without a match with the diagnostic
    that carries the pattern and the string. *)
Theorem ValidateRegexString_spec (regEx : string) (r : Regexp) :
  MustCompile regEx = Some r ->
  exists v : ValidatorFunc W,
    ValidateRegexString regEx = Ret v
    /\ forall (x : Value) (w : W),
         (v x w = (Ret None, w)
          <-> exists s, x = VString s /\ MatchString r s = true)
         /\ (dyn_type x <> TString ->
             v x w
             = (Ret (Some (Errorf
                  "Invalid result type. Expected string but got %T" [x])),
                w))
         /\ (forall s, x = VString s -> MatchString r s = false ->
             v x w
             = (Ret (Some (Errorf "The regex %s failed to match result %s"
                             [VString regEx; VString s])), w)).
Proof.
  intros Hc.
  destruct (ValidateRegexString (W := W) regEx) as [v|p] eqn:Hv.
  2:{ unfold ValidateRegexString in Hv. rewrite Hc in Hv. discriminate. }
  exists v. split; [reflexivity|].
  destruct (ValidateRegexString_built _ _ Hv) as (r' & Hc' & Hspec).
  assert (r' = r) by congruence. subst r'.
  intros x w. rewrite Hspec. repeat split.
  - destruct x; try discriminate.
    destruct (MatchString r s) eqn:Hm; [eauto | discriminate].
  - intros (s & -> & Hm). now rewrite Hm.
  - destruct x; simpl; congruence.
  - intros s -> Hm. now rewrite Hm.
Qed.

End RegexFacts.

(** With literal expressions: a match, no match, and a number. *)
Lemma ValidateRegexString_spec_witness :
  exists v : ValidatorFunc unit,
    ValidateRegexString (regexp := LiteralRegex) "0x1a" = Ret v
    /\ v (VString "result: 0x1a") tt = (Ret None, tt)
    /\ v (VString "1a") tt
       = (Ret (Some (Errorf "The regex %s failed to match result %s"
                       [VString "0x1a"; VString "1a"])), tt)
    /\ v (VFloat64 42%float) tt
       = (Ret (Some (Errorf
            "Invalid result type. Expected string but got %T"
            [VFloat64 42%float])), tt).
Proof.
  destruct (@ValidateRegexString_spec unit LiteralRegex "0x1a" "0x1a"
              eq_refl) as (v & Hv & Hspec).
  exists v. split; [exact Hv|]. repeat split.
  - apply (proj1 (Hspec _ tt)). eexists. split; reflexivity.
  - apply (proj2 (proj2 (Hspec _ tt))); reflexivity.
  - apply (proj1 (proj2 (Hspec _ tt))). discriminate.
Defined.

(** ** The schema validator *)

Lemma append_assoc (a b c : string) :
  ((a ++ b) ++ c)%string = (a ++ (b ++ c))%string.
Proof. induction a as [|x a IH]; simpl; congruence. Qed.

Lemma append_empty (a : string) : (a ++ "")%string = a.
Proof. induction a as [|x a IH]; simpl; congruence. Qed.

Lemma fold_violations (violations : list string) (acc : string) :
  fold_left (fun errStr desc => (errStr ++ (desc ++ LF))%string)
    violations acc
  = (acc ++ concat_violations violations)%string.
Proof.
  revert acc; induction violations as [|d ds IH]; intros acc; simpl.
  - now rewrite append_empty.
  - rewrite IH, !append_assoc. reflexivity.
Qed.

Lemma violations_text_concat (violations : list string) :
  violations_text violations = concat_violations violations.
Proof. unfold violations_text. now rewrite fold_violations. Qed.

Section SchemaFacts.
Context {W : Type} {json : JSONLib}.

Lemma ValidateJSONSchema_stateless (schema : string) :
  stateless (ValidateJSONSchema (W := W) schema).
Proof.
  exists (fun x => match ValidateJSONSchema schema x tt with
                   | (Ret r, _) => r
                   | _ => None
                   end).
  intros x w. unfold ValidateJSONSchema.
  destruct (Marshal x) as [e|text]; [reflexivity|].
  destruct (SchemaValidate schema text) as [e|vs]; [reflexivity|].
  destruct (Valid vs); reflexivity.
Qed.

(** C6: the validator marshals the observed value and validates the
    text against the schema; it succeeds exactly when that reports no
    violation; with violations, the diagnostic carries all their
    descriptions, concatenated; a value that cannot be marshalled, or a
    validation that cannot run, is a failure with a diagnostic of its
    own: the validator always returns. *)
Theorem ValidateJSONSchema_spec (schema : string) (x : Value) (w : W) :
  (ValidateJSONSchema schema x w = (Ret None, w)
   <-> exists text,
         Marshal x = inr text /\ SchemaValidate schema text = inr [])
  /\ (forall text violations,
        Marshal x = inr text ->
        SchemaValidate schema text = inr violations ->
        violations <> [] ->
        ValidateJSONSchema schema x w
        = (Ret (Some (Errorf "The json document is not valid: %s"
                        [VString (concat_violations violations)])), w))
  /\ (forall err,
        Marshal x = inl err ->
        ValidateJSONSchema schema x w
        = (Ret (Some (Errorf
             "Unable to marshal result back to json for validation: %w"
             [VError err])), w))
  /\ (forall text err,
        Marshal x = inr text ->
        SchemaValidate schema text = inl err ->
        ValidateJSONSchema schema x w
        = (Ret (Some (Errorf "Unable to run json validation: %w"
                        [VError err])), w))
  /\ exists r, ValidateJSONSchema schema x w = (Ret r, w).
Proof.
  unfold ValidateJSONSchema.
  split; [split | split; [|split; [|split]]].
  - destruct (Marshal x) as [e|text]; [discriminate|].
    destruct (SchemaValidate schema text) as [e|vs] eqn:Hs; [discriminate|].
    destruct vs; [eauto | discriminate].
  - intros (text & -> & ->). reflexivity.
  - intros text vs -> -> Hvs. destruct vs; [congruence|]. simpl negb.
    cbv iota. now rewrite violations_text_concat.
  - intros err ->. reflexivity.
  - intros text err -> ->. reflexivity.
  - destruct (Marshal x) as [e|text]; [eauto|].
    destruct (SchemaValidate schema text) as [e|vs]; [eauto|].
    destruct (Valid vs); simpl; eauto.
Qed.

End SchemaFacts.

(** The schema of a boolean: [false] conforms, the string [false] does
    not, and a number cannot be marshalled by the test double. *)
Lemma ValidateJSONSchema_spec_witness :
  ValidateJSONSchema (json := BoolJSON) boolean_schema (VBool false) tt
  = (Ret None, tt)
  /\ ValidateJSONSchema (json := BoolJSON) boolean_schema (VString "false") tt
     = (Ret (Some (Errorf "The json document is not valid: %s"
          [VString (concat_violations
             [("(root): Invalid type. Expected: boolean, given: "
                 ++ dquote ++ "false" ++ dquote)%string])])), tt)
  /\ ValidateJSONSchema (json := BoolJSON) boolean_schema (VInt 1) tt
     = (Ret (Some (Errorf
          "Unable to marshal result back to json for validation: %w"
          [VError (mkErr 1 "json: unsupported type")])), tt).
Proof.
  split; [|split].
  - apply (proj1 (ValidateJSONSchema_spec (json := BoolJSON)
                    boolean_schema (VBool false) tt)).
    exists "false". split; reflexivity.
  - apply (proj1 (proj2 (ValidateJSONSchema_spec (json := BoolJSON)
                    boolean_schema (VString "false") tt))
             (dquote ++ "false" ++ dquote)%string).
    + reflexivity.
    + reflexivity.
    + discriminate.
  - apply (proj1 (proj2 (proj2 (ValidateJSONSchema_spec (json := BoolJSON)
                    boolean_schema (VInt 1) tt)))).
    reflexivity.
Defined.

(** ** The loop: one test *)

Lemma verdicts_app (l1 l2 : list LogLine) :
  verdicts (l1 ++ l2) = verdicts l1 ++ verdicts l2.
Proof.
  induction l1 as [|l l1 IH]; simpl; [reflexivity|].
  destruct (verdict_of_line l); simpl; now rewrite IH.
Qed.

Lemma started_app (l1 l2 : list LogLine) :
  started (l1 ++ l2) = started l1 + started l2.
Proof.
  unfold started. now rewrite filter_app, length_app.
Qed.

Ltac run_test_steps :=
  unfold run_test, bind, emit, call_context, call_validator, ret; simpl.

Section TestFacts.
Context {W : Type} {rpc : RPCLib W}.
Implicit Types (t : RPCTest W) (w : W).

(** A call that fails when no error is expected: the validator is not
    applied. *)
Lemma run_test_call_failed (rpcClient : Client) t w e w' :
  ExpectError t = false ->
  CallContext rpcClient (GetMethod t) (GetArgs t) w = (CallErr e, w') ->
  run_test rpcClient t w
  = mkOut (Ret tt)
      [line_running (GetMethod t); line_call_failed e (GetMethod t)] w'.
Proof.
  intros Hx Hc. run_test_steps. rewrite Hc, Hx. reflexivity.
Qed.


Lemma run_test_validated (rpcClient : Client) t w o w' verr w'' :
  CallContext rpcClient (GetMethod t) (GetArgs t) w = (o, w') ->
  (forall e, o = CallErr e -> ExpectError t = true) ->
  Validate t (observed t o) w' = (Ret verr, w'') ->
  run_test rpcClient t w
  = mkOut (Ret tt)
      [line_running (GetMethod t);
       match verr with
       | Some e => line_invalid e (GetMethod t)
       | None => line_valid (GetMethod t)
       end] w''.
Proof.
  intros Hc Hx Hv. run_test_steps. rewrite Hc.
  destruct o as [x|e]; simpl in *.
  - destruct (ExpectError t); simpl; rewrite Hv; destruct verr; reflexivity.
  - rewrite (Hx e eq_refl). simpl. rewrite Hv. destruct verr; reflexivity.
Qed.

Lemma run_test_returns (rpcClient : Client) t w :
  returns (Validate t) ->
  res (run_test rpcClient t w) = Ret tt
  /\ started (logged (run_test rpcClient t w)) = 1.
Proof.
  intros Hr.
  destruct (CallContext rpcClient (GetMethod t) (GetArgs t) w)
    as [o w'] eqn:Hc.
  destruct o as [x|e].
  - destruct (Hr (observed t (CallOk x)) w') as (verr & w'' & Hv).
    rewrite (run_test_validated _ _ _ _ _ _ _ Hc ltac:(discriminate) Hv).
    destruct verr; split; reflexivity.
  - destruct (ExpectError t) eqn:Hx.
    + destruct (Hr (observed t (CallErr e)) w') as (verr & w'' & Hv).
      rewrite (run_test_validated _ _ _ _ _ _ _ Hc ltac:(auto) Hv).
      destruct verr; split; reflexivity.
    + rewrite (run_test_call_failed _ _ _ _ _ Hx Hc). split; reflexivity.
Qed.

End TestFacts.

Section RoutingFacts.
Context {W : Type} {rpc : RPCLib W} {regexp : RegexLib}.

(** C1, as amended: a test that expects an error and is bound to an
    error-regex validator is recorded as a success when the call
    returns an error whose message matches; when the call returns a
    result instead, the validator is applied to the nil error, rejects
    it with its wrong-type diagnostic, and the test is recorded as a
    validation failure. *)
Theorem expect_error_routing (rpcClient : Client) (t : RPCTest W)
  (pattern : string) (r : Regexp) (w : W) :
  ExpectError t = true ->
  MustCompile pattern = Some r ->
  ValidateError pattern = Ret (Validate t) ->
  (forall e w',
     CallContext rpcClient (GetMethod t) (GetArgs t) w = (CallErr e, w') ->
     MatchString r (Error e) = true ->
     run_test rpcClient t w
     = mkOut (Ret tt)
         [line_running (GetMethod t); line_valid (GetMethod t)] w'
     /\ verdicts (logged (run_test rpcClient t w))
        = [(GetMethod t, Success)])
  /\ (forall x w',
        CallContext rpcClient (GetMethod t) (GetArgs t) w = (CallOk x, w') ->
        Validate t VNil w'
        = (Ret (Some (Errorf
             "Invalid result type. Expected error but got %T" [VNil])), w')
        /\ run_test rpcClient t w
           = mkOut (Ret tt)
               [line_running (GetMethod t);
                line_invalid
                  (Errorf "Invalid result type. Expected error but got %T"
                     [VNil])
                  (GetMethod t)] w'
        /\ verdicts (logged (run_test rpcClient t w))
           = [(GetMethod t, ValidationFailure)]).
Proof.
  intros Hx Hc Hv.
  destruct (ValidateError_built _ _ Hv) as (r' & Hc' & Hspec).
  assert (r' = r) by congruence. subst r'.
  split.
  - intros e w' Hcall Hm.
    assert (Hval : Validate t (observed t (CallErr e)) w' = (Ret None, w')).
    { simpl. rewrite Hspec, Hm. reflexivity. }
    rewrite (run_test_validated _ _ _ _ _ _ _ Hcall ltac:(auto) Hval).
    split; reflexivity.
  - intros x w' Hcall.
    assert (Hval : Validate t VNil w'
                   = (Ret (Some (Errorf
                        "Invalid result type. Expected error but got %T"
                        [VNil])), w')).
    { rewrite Hspec. reflexivity. }
    split; [exact Hval|].
    assert (Hobs : observed t (CallOk x) = VNil).
    { simpl. now rewrite Hx. }
    rewrite <- Hobs in Hval at 1.
    rewrite (run_test_validated _ _ _ _ _ _ _ Hcall ltac:(discriminate) Hval).
    split; reflexivity.
Qed.

End RoutingFacts.


(** The error test of [web3_sha3]: the error of the endpoint, then a
    digest where the error was expected. *)
Lemma expect_error_routing_witness :
  verdicts (logged (run_test (rpc := ScriptedRPC) tt Web3SHA3Error_double
                      (mkTestWorld [CallErr sha3_error] 0)))
  = [("web3_sha3", Success)]
  /\ verdicts (logged (run_test (rpc := ScriptedRPC) tt Web3SHA3Error_double
                         (mkTestWorld [CallOk sha3_digest] 0)))
     = [("web3_sha3", ValidationFailure)].
Proof.
  split.
  - apply (proj1 (@expect_error_routing TestWorld ScriptedRPC LiteralRegex
             tt Web3SHA3Error_double
             "cannot unmarshal hex string without 0x prefix"
             "cannot unmarshal hex string without 0x prefix"
             (mkTestWorld [CallErr sha3_error] 0)
             eq_refl eq_refl eq_refl) sha3_error (mkTestWorld [] 0));
      reflexivity.
  - apply (proj2 (@expect_error_routing TestWorld ScriptedRPC LiteralRegex
             tt Web3SHA3Error_double
             "cannot unmarshal hex string without 0x prefix"
             "cannot unmarshal hex string without 0x prefix"
             (mkTestWorld [CallOk sha3_digest] 0)
             eq_refl eq_refl eq_refl) sha3_digest (mkTestWorld [] 0));
      reflexivity.
Defined.

(** C1, the second half as first stated: a result where an error is
    expected is not recorded as a call failure that skips the
    validator.  On the error test of [web3_sha3] with a counted
    validator the validator is invoked once and the verdict is a
    validation failure. *)
Lemma expect_error_normal_result_counterexample :
  let o := run_test (rpc := ScriptedRPC) tt Web3SHA3Error_counted
             (mkTestWorld [CallOk sha3_digest] 0) in
  verdicts (logged o) = [("web3_sha3", ValidationFailure)]
  /\ verdicts (logged o) <> [("web3_sha3", CallFailure)]
  /\ invocations (world o) = 1.
Proof.
  vm_compute. repeat split. discriminate.
Qed.

(** ** The loop: every test, in order *)

Section LoopFacts.
Context {W : Type} {rpc : RPCLib W}.

Lemma bind_ret_l {A B : Type} (a : A) (k : A -> M W B) (w : W) :
  (ret a ;; k a) w = k a w.
Proof. unfold bind, ret. simpl. now destruct (k a w). Qed.

Lemma bind_assoc {A B C : Type} (m : M W A) (k : A -> M W B)
  (h : B -> M W C) (w : W) :
  (y <- (x <- m ;; k x) ;; h y) w = (x <- m ;; y <- k x ;; h y) w.
Proof.
  unfold bind. destruct (m w) as [[a|p] l w1]; simpl; [|reflexivity].
  destruct (k a w1) as [[b|p] l' w2]; simpl; [|reflexivity].
  destruct (h b w2) as [r l'' w3]; simpl. now rewrite app_assoc.
Qed.

Lemma bind_ext {A B : Type} (m : M W A) (k k' : A -> M W B) (w : W) :
  (forall a w', k a w' = k' a w') ->
  (x <- m ;; k x) w = (x <- m ;; k' x) w.
Proof.
  intros H. unfold bind. destruct (res (m w)); [|reflexivity].
  now rewrite H.
Qed.

(** The loop on a registry is the loop on a first part followed by the
    loop on the rest. *)
Lemma RunE_loop_app (rpcClient : Client) (pre post : list (RPCTest W)) :
  forall w,
    RunE_loop rpcClient (pre ++ post) w
    = (RunE_loop rpcClient pre ;; RunE_loop rpcClient post) w.
Proof.
  induction pre as [|t pre IH]; intros w; cbn [RunE_loop app].
  - now rewrite (bind_ret_l tt (fun _ => RunE_loop rpcClient post)).
  - rewrite bind_assoc. apply bind_ext. intros _ w'. apply IH.
Qed.

(** With validators that return, the loop reaches its end and starts
    every test. *)
Lemma RunE_loop_returns (rpcClient : Client) (tests : list (RPCTest W)) :
  Forall (fun t => returns (Validate t)) tests ->
  forall w,
    res (RunE_loop rpcClient tests w) = Ret tt
    /\ started (logged (RunE_loop rpcClient tests w)) = List.length tests.
Proof.
  induction 1 as [|t tests Ht _ IH]; intros w; cbn [RunE_loop].
  - split; reflexivity.
  - unfold bind.
    destruct (run_test_returns rpcClient t w Ht) as [Hr Hs].
    rewrite Hr. cbn [res logged world].
    destruct (IH (world (run_test rpcClient t w))) as [Hr' Hs'].
    split; [exact Hr'|]. rewrite started_app, Hs, Hs'. reflexivity.
Qed.

End LoopFacts.

Lemma stateless_returns {W : Type} (v : ValidatorFunc W) :
  stateless v -> returns v.
Proof. intros [f Hf] x w. rewrite Hf. eauto. Qed.

Lemma nth_error_combine {A B : Type} (l1 : list A) (l2 : list B) (j : nat) :
  nth_error (combine l1 l2) j
  = match nth_error l1 j, nth_error l2 j with
    | Some a, Some b => Some (a, b)
    | _, _ => None
    end.
Proof.
  revert l2 j; induction l1 as [|a l1 IH]; intros l2 j.
  - destruct j; reflexivity.
  - destruct l2 as [|b l2].
    + destruct j; simpl; [reflexivity|]. now destruct (nth_error l1 j).
    + destruct j; simpl; [reflexivity | apply IH].
Qed.

(** One test against the scripted endpoint, with a stateless
    validator: the verdict is that of the test and its own outcome. *)
Lemma run_test_scripted (t : RPCTest TestWorld) (o : CallOutcome)
  (rest : list CallOutcome) (n : nat) :
  stateless (Validate t) ->
  let out := run_test (rpc := ScriptedRPC) tt t (mkTestWorld (o :: rest) n) in
  res out = Ret tt
  /\ world out = mkTestWorld rest n
  /\ verdicts (logged out) = [expected_verdict t o].
Proof.
  intros [f Hf]. cbv zeta.
  assert (Hcall : CallContext (RPCLib := ScriptedRPC) tt (GetMethod t)
                    (GetArgs t) (mkTestWorld (o :: rest) n)
                  = (o, mkTestWorld rest n)) by reflexivity.
  unfold expected_verdict.
  destruct o as [x|e].
  - rewrite (run_test_validated _ _ _ _ _ _ _ Hcall ltac:(discriminate) (Hf _ _)).
    simpl observed. rewrite Hf. simpl.
    destruct (f _); repeat split; reflexivity.
  - destruct (ExpectError t) eqn:Hx.
    + rewrite (run_test_validated _ _ _ _ _ _ _ Hcall ltac:(auto) (Hf _ _)).
      simpl observed. rewrite Hf. simpl.
      destruct (f _); repeat split; reflexivity.
    + rewrite (run_test_call_failed _ _ _ _ _ Hx Hcall).
      repeat split; reflexivity.
Qed.

Lemma RunE_loop_scripted (registry : list (RPCTest TestWorld)) :
  Forall (fun t => stateless (Validate t)) registry ->
  forall (outcomes : list CallOutcome) (n : nat),
    List.length outcomes = List.length registry ->
    let out := RunE_loop (rpc := ScriptedRPC) tt registry
                 (mkTestWorld outcomes n) in
    res out = Ret tt
    /\ world out = mkTestWorld [] n
    /\ verdicts (logged out)
       = map (fun c => expected_verdict (fst c) (snd c))
           (combine registry outcomes).
Proof.
  induction 1 as [|t registry Ht _ IH]; intros outcomes n Hlen; cbv zeta.
  - destruct outcomes; [|discriminate]. repeat split; reflexivity.
  - destruct outcomes as [|o outcomes]; [discriminate|].
    injection Hlen as Hlen.
    destruct (run_test_scripted t o outcomes n Ht) as (Hr & Hw & Hv).
    destruct (IH outcomes n Hlen) as (Hr' & Hw' & Hv').
    cbn [RunE_loop]. unfold bind. rewrite Hr, Hw.
    cbn [res logged world]. rewrite verdicts_app, Hv, Hv'.
    repeat split; assumption || reflexivity.
Qed.

(** C7: against any assignment of outcomes to the calls, and for any
    registry of stateless validators, the loop reaches its end, and the
    verdicts it records are, in the order of the registry, one for
    every test: the verdict of that test on its own outcome.  So the
    verdict of a test is the same under any other assignment that
    gives this test the same outcome: no error or failure of another
    test changes it. *)
Theorem RunE_loop_independent (registry : list (RPCTest TestWorld))
  (outcomes : list CallOutcome) (n : nat) :
  List.length outcomes = List.length registry ->
  Forall (fun t => stateless (Validate t)) registry ->
  let out := RunE_loop (rpc := ScriptedRPC) tt registry
               (mkTestWorld outcomes n) in
  res out = Ret tt
  /\ verdicts (logged out)
     = map (fun c => expected_verdict (fst c) (snd c))
         (combine registry outcomes)
  /\ List.length (verdicts (logged out)) = List.length registry
  /\ map fst (verdicts (logged out)) = map (@GetMethod TestWorld) registry
  /\ forall (outcomes' : list CallOutcome) (n' j : nat),
       List.length outcomes' = List.length registry ->
       nth_error outcomes' j = nth_error outcomes j ->
       nth_error
         (verdicts (logged (RunE_loop (rpc := ScriptedRPC) tt registry
                              (mkTestWorld outcomes' n')))) j
       = nth_error (verdicts (logged out)) j.
Proof.
  intros Hlen Hst. cbv zeta.
  destruct (RunE_loop_scripted registry Hst outcomes n Hlen)
    as (Hr & _ & Hv).
  rewrite Hv. split; [exact Hr|]. split; [reflexivity|]. split; [|split].
  - now rewrite length_map, length_combine, Hlen, Nat.min_id.
  - clear Hr Hv Hst. revert outcomes Hlen.
    induction registry as [|t registry IH]; intros [|o outcomes] Hlen;
      try discriminate; [reflexivity|].
    simpl. f_equal. apply IH. now injection Hlen.
  - intros outcomes' n' j Hlen' Hj.
    destruct (RunE_loop_scripted registry Hst outcomes' n' Hlen')
      as (_ & _ & Hv').
    rewrite Hv', !nth_error_map, !nth_error_combine, Hj. reflexivity.
Qed.

(** ** The strategies are stateless *)

Lemma ValidateExact_stateless {W : Type} (expected : Value) :
  comparable_primitive expected = true ->
  stateless (ValidateExact (W := W) expected).
Proof.
  intros Hp.
  exists (fun x => match go_eq expected x with
                   | Some true => None
                   | _ => Some (Errorf "Expected %v and got %v" [expected; x])
                   end).
  intros x w. unfold ValidateExact.
  destruct (go_eq_primitive expected x Hp) as [E|E]; now rewrite E.
Qed.

Lemma ValidateRegexString_stateless {W : Type} {regexp : RegexLib}
  (regEx : string) (v : ValidatorFunc W) :
  ValidateRegexString regEx = Ret v -> stateless v.
Proof.
  intros Hv. destruct (ValidateRegexString_built _ _ Hv) as (r & _ & Hspec).
  exists (fun x => match x with
                   | VString s =>
                       if MatchString r s then None
                       else Some (Errorf
                              "The regex %s failed to match result %s"
                              [VString regEx; VString s])
                   | _ => Some (Errorf
                            "Invalid result type. Expected string but got %T"
                            [x])
                   end).
  intros x w. rewrite Hspec. destruct x; try reflexivity.
  now destruct (MatchString r s).
Qed.

Lemma ValidateError_stateless {W : Type} {regexp : RegexLib}
  (pattern : string) (v : ValidatorFunc W) :
  ValidateError pattern = Ret v -> stateless v.
Proof.
  intros Hv. destruct (ValidateError_built _ _ Hv) as (r & _ & Hspec).
  exists (fun x => match x with
                   | VError e =>
                       if MatchString r (Error e) then None
                       else Some (Errorf
                              "The regex %s failed to match result %s"
                              [VString pattern; VString (Error e)])
                   | _ => Some (Errorf
                            "Invalid result type. Expected error but got %T"
                            [x])
                   end).
  intros x w. rewrite Hspec. destruct x; try reflexivity.
  now destruct (MatchString r (Error e)).
Qed.

Lemma ChainValidator_stateless {W : Type} (vs : list (ValidatorFunc W)) :
  Forall stateless vs -> stateless (ChainValidator vs).
Proof. intros H. exact (chain_loop_stateless vs H). Qed.


Lemma three_tests_stateless :
  Forall (fun t => stateless (Validate t)) three_tests.
Proof.
  repeat constructor; simpl.
  - now apply ValidateExact_stateless.
  - apply (ValidateError_stateless (regexp := LiteralRegex)
             "cannot unmarshal hex string without 0x prefix").
    reflexivity.
  - apply ChainValidator_stateless.
    repeat constructor; now apply ValidateExact_stateless.
Defined.

(** The verdicts of [three_tests] when the first call is refused. *)
Lemma RunE_loop_independent_witness :
  verdicts (logged (RunE_loop (rpc := ScriptedRPC) tt three_tests
                      (mkTestWorld
                         [CallErr connection_refused; CallErr sha3_error;
                          CallOk (VBool false)] 0)))
  = [("net_listening", CallFailure); ("web3_sha3", Success);
     ("eth_mining", Success)].
Proof.
  exact (proj1 (proj2
    (@RunE_loop_independent three_tests
       [CallErr connection_refused; CallErr sha3_error; CallOk (VBool false)]
       0 eq_refl three_tests_stateless))).
Defined.

(** ** [setupTests] *)


Section SetupFacts.
Context {W : Type} {regexp : RegexLib} {json : JSONLib}
  {rpctypes : RPCTypes} {eth : EthLib}.
Implicit Types (g : Globals W) (r : RPCTestGeneric W)
  (entries : list (TestVar * Res (RPCTestGeneric W))).


Lemma generic_well_formed method args isError c r :
  builds_stateless c ->
  generic method args isError c = Ret r -> well_formed r.
Proof.
  intros Hc. unfold generic. destruct c as [v|p]; simpl; [|discriminate].
  intros H. injection H as <-. exists v. split; [reflexivity|].
  now apply Hc.
Qed.

Lemma builds_regex regEx :
  builds_stateless (W := W) (ValidateRegexString regEx).
Proof. intros v. apply ValidateRegexString_stateless. Qed.

Lemma builds_error pattern :
  builds_stateless (W := W) (ValidateError pattern).
Proof. intros v. apply ValidateError_stateless. Qed.

Lemma builds_ret (v : ValidatorFunc W) :
  stateless v -> builds_stateless (Ret v).
Proof. intros Hv v' H. injection H as <-. exact Hv. Qed.

Lemma builds_bind {A : Type} (m : Res A) (k : A -> Res (ValidatorFunc W)) :
  (forall a, builds_stateless (k a)) -> builds_stateless (bindR m k).
Proof.
  intros Hk v. destruct m as [a|p]; simpl; [apply Hk | discriminate].
Qed.

Lemma catalog_well_formed g :
  Forall (fun entry => forall r, snd entry = Ret r -> well_formed r)
    (catalog g).
Proof.
  unfold catalog.
  repeat (apply Forall_cons; [cbn [snd]; intros r; apply generic_well_formed|]);
    try apply Forall_nil;
    try apply builds_regex; try apply builds_error;
    try (apply builds_bind; intros; apply builds_regex);
    apply builds_ret;
    try apply ChainValidator_stateless;
    repeat constructor;
    try (now apply ValidateExact_stateless);
    apply ValidateJSONSchema_stateless.
Qed.

Lemma catalog_fst g : map fst (catalog g) = catalog_vars.
Proof. reflexivity. Qed.

Lemma catalog_config g g' :
  testEthAddress g' = testEthAddress g ->
  testContractAddress g' = testContractAddress g ->
  catalog g' = catalog g.
Proof. intros H1 H2. unfold catalog, storage_pattern. now rewrite H1, H2. Qed.

Lemma setup_fold_panic entries p :
  fold_left (@setup_step W eth) entries (Panic p) = Panic p.
Proof. induction entries as [|e entries IH]; simpl; auto. Qed.

Lemma setup_fold_ret entries : forall g g',
  fold_left (@setup_step W eth) entries (Ret g) = Ret g' ->
  allTests g' = allTests g ++ map fst entries
  /\ testEthAddress g' = testEthAddress g
  /\ testContractAddress g' = testContractAddress g
  /\ testPrivateHexKey g' = testPrivateHexKey g
  /\ testPrivateKey g' = testPrivateKey g.
Proof.
  induction entries as [|[p rr] entries IH]; intros g g'; simpl.
  - intros H. injection H as <-. now rewrite app_nil_r.
  - destruct rr as [r|q]; simpl.
    + intros H. destruct (IH _ _ H) as (Ha & Hc). split; [|exact Hc].
      rewrite Ha. simpl. now rewrite <- app_assoc.
    + now rewrite setup_fold_panic.
Qed.

Lemma setup_fold_vars (P : RPCTestGeneric W -> Prop) entries :
  Forall (fun entry => forall r, snd entry = Ret r -> P r) entries ->
  forall g g',
    fold_left (@setup_step W eth) entries (Ret g) = Ret g' ->
    forall p, In p (map fst entries) \/ P (vars g p) -> P (vars g' p).
Proof.
  induction 1 as [|[q rr] entries Hq _ IH]; intros g g'; simpl.
  - intros H. injection H as <-. intros p [[]|Hp]. exact Hp.
  - destruct rr as [r|s]; simpl; [|now rewrite setup_fold_panic].
    intros H p Hp. apply (IH _ _ H). cbn [vars declare].
    destruct (TestVar_eq_dec p q) as [->|Hne].
    + right. now apply Hq.
    + destruct Hp as [[Heq|Hin]|Hp]; [congruence | now left | now right].
Qed.

Lemma setup_fold_total entries :
  Forall (fun entry => exists r, snd entry = Ret r) entries ->
  forall g, exists g', fold_left (@setup_step W eth) entries (Ret g) = Ret g'.
Proof.
  induction 1 as [|[q rr] entries [r Hr] _ IH]; intros g; simpl.
  - eauto.
  - simpl in Hr. subst rr. simpl. apply IH.
Qed.

Lemma catalog_vars_complete (p : TestVar) : In p catalog_vars.
Proof. destruct p; simpl; tauto. Qed.

(** After [setupTests], every test variable holds a stateless
    validator, whatever it held before. *)
Lemma setupTests_well_formed g g' :
  setupTests g = Ret g' -> forall p, well_formed (vars g' p).
Proof.
  intros H p.
  apply (@setup_fold_vars well_formed (catalog g)
           (catalog_well_formed g) g g' H).
  left. rewrite catalog_fst. apply catalog_vars_complete.
Qed.

Lemma setupTests_allTests g g' :
  setupTests g = Ret g' -> allTests g' = allTests g ++ catalog_vars.
Proof.
  intros H. destruct (@setup_fold_ret (catalog g) g g' H) as (Ha & _).
  now rewrite Ha, catalog_fst.
Qed.

Lemma setupTests_config g g' :
  setupTests g = Ret g' ->
  testEthAddress g' = testEthAddress g
  /\ testContractAddress g' = testContractAddress g.
Proof.
  intros H. destruct (@setup_fold_ret (catalog g) g g' H) as (_ & Ha & Hc & _).
  now split.
Qed.

Lemma setupTests_total g :
  literals_evaluate g -> exists g', setupTests g = Ret g'.
Proof. intros H. exact (@setup_fold_total (catalog g) H g). Qed.

Lemma literals_evaluate_config g g' :
  testEthAddress g' = testEthAddress g ->
  testContractAddress g' = testContractAddress g ->
  literals_evaluate g -> literals_evaluate g'.
Proof.
  intros H1 H2. unfold literals_evaluate.
  now rewrite (@catalog_config g g' H1 H2).
Qed.

Lemma setup_fold_untouched entries : forall g g',
  fold_left (@setup_step W eth) entries (Ret g) = Ret g' ->
  forall p, ~ In p (map fst entries) -> vars g' p = vars g p.
Proof.
  induction entries as [|[q rr] entries IH]; intros g g'; simpl.
  - intros H. now injection H as <-.
  - destruct rr as [r|s]; simpl; [|now rewrite setup_fold_panic].
    intros H p Hp. rewrite (IH _ _ H p) by tauto. cbn [vars declare].
    destruct (TestVar_eq_dec p q) as [->|Hne]; [tauto | reflexivity].
Qed.

(** When no variable is assigned twice, each holds the literal that
    was assigned to it. *)
Lemma setup_fold_lookup entries :
  NoDup (map fst entries) ->
  forall g g',
    fold_left (@setup_step W eth) entries (Ret g) = Ret g' ->
    forall p rr, In (p, rr) entries -> rr = Ret (vars g' p).
Proof.
  induction entries as [|[q rr] entries IH]; intros Hnd g g'; simpl.
  - intros _ p rr' [].
  - inversion Hnd as [|? ? Hq Hnd']; subst.
    destruct rr as [r|s]; simpl; [|now rewrite setup_fold_panic].
    intros H p rr' [Heq|Hin].
    + injection Heq as <- <-.
      rewrite (@setup_fold_untouched entries _ g' H q Hq).
      cbn [vars declare].
      destruct (TestVar_eq_dec q q); [reflexivity | congruence].
    + exact (IH Hnd' _ _ H p rr' Hin).
Qed.

Lemma catalog_vars_NoDup : NoDup catalog_vars.
Proof.
  unfold catalog_vars.
  repeat (apply NoDup_cons;
          [simpl; intros H; repeat (destruct H as [H|H]; [discriminate|]);
           exact H|]).
  apply NoDup_nil.
Qed.

(** A second [setupTests] under the same configuration assigns to each
    variable the literal it already holds. *)
Lemma setupTests_same_vars g g1 g2 :
  setupTests g = Ret g1 -> setupTests g1 = Ret g2 ->
  forall p, vars g2 p = vars g1 p.
Proof.
  intros H1 H2 p.
  destruct (@setup_fold_ret (catalog g) g g1 H1) as (_ & Ha & Hc & _).
  unfold setupTests in H2. rewrite (@catalog_config g g1 Ha Hc) in H2.
  assert (Hnd : NoDup (map fst (catalog g))).
  { rewrite catalog_fst. apply catalog_vars_NoDup. }
  assert (Hin : In p (map fst (catalog g))).
  { rewrite catalog_fst. apply catalog_vars_complete. }
  apply in_map_iff in Hin. destruct Hin as ([q rr] & Hq & Hin).
  simpl in Hq. subst q.
  pose proof (@setup_fold_lookup (catalog g) Hnd g g1 H1 p rr Hin) as E1.
  pose proof (@setup_fold_lookup (catalog g) Hnd g1 g2 H2 p rr Hin) as E2.
  congruence.
Qed.

End SetupFacts.

Section RegistryFacts.
Context {W : Type} {regexp : RegexLib} {json : JSONLib}
  {rpctypes : RPCTypes} {eth : EthLib}.

(** C10: [setupTests] appends its 25 pointers to [allTests] and clears
    nothing.  Run once from the empty registry it leaves 25 distinct
    entries; run a second time it keeps these in place and appends the
    same 25 pointers again: 50 entries, each test twice, and the
    registry the loop reads is the first one repeated. *)
Theorem setupTests_twice (g : Globals W) :
  literals_evaluate g ->
  exists g1 g2,
    setupTests g = Ret g1
    /\ setupTests g1 = Ret g2
    /\ allTests g1 = allTests g ++ catalog_vars
    /\ allTests g2 = allTests g1 ++ catalog_vars
    /\ List.length catalog_vars = 25
    /\ (allTests g = [] ->
        NoDup (allTests g1)
        /\ List.length (allTests g1) = 25
        /\ List.length (allTests g2) = 50
        /\ ~ NoDup (allTests g2)
        /\ (forall p, count_occ TestVar_eq_dec (allTests g2) p = 2)
        /\ map (deref g2) (allTests g2)
           = map (deref g1) (allTests g1) ++ map (deref g1) (allTests g1)).
Proof.
  intros Hlit.
  destruct (setupTests_total g Hlit) as [g1 H1].
  pose proof H1 as Hcfg. apply setupTests_config in Hcfg.
  destruct Hcfg as [Ha Hc].
  assert (Hlit1 : literals_evaluate g1).
  { eapply literals_evaluate_config; eassumption. }
  destruct (setupTests_total g1 Hlit1) as [g2 H2].
  exists g1, g2.
  pose proof H1 as E1. apply setupTests_allTests in E1.
  pose proof H2 as E2. apply setupTests_allTests in E2.
  repeat (split; [assumption || reflexivity|]).
  intros Hempty. rewrite Hempty in E1. simpl in E1.
  rewrite E2, E1.
  split; [apply catalog_vars_NoDup|].
  split; [reflexivity|]. split; [reflexivity|]. split; [|split].
  - intros Hnd. apply NoDup_remove_2 with (l := []) in Hnd.
    apply Hnd. simpl. tauto.
  - intros p. destruct p; reflexivity.
  - rewrite map_app. f_equal; apply map_ext; intros p; unfold deref;
      now rewrite (@setupTests_same_vars _ _ _ _ _ g g1 g2 H1 H2 p).
Qed.

End RegistryFacts.


(** With the literal engine every pattern of the catalog compiles. *)
Lemma double_literals_evaluate :
  literals_evaluate (regexp := LiteralRegex) (json := BoolJSON)
    (rpctypes := BoolSchemas) double_globals.
Proof.
  unfold literals_evaluate.
  repeat (apply Forall_cons; [eexists; reflexivity|]).
  apply Forall_nil.
Defined.

(** [setupTests] twice on the default configuration. *)
Lemma setupTests_twice_witness :
  exists g1 g2,
    setupTests (regexp := LiteralRegex) (json := BoolJSON)
      (rpctypes := BoolSchemas) double_globals = Ret g1
    /\ setupTests (regexp := LiteralRegex) (json := BoolJSON)
         (rpctypes := BoolSchemas) g1 = Ret g2
    /\ List.length (allTests g1) = 25
    /\ List.length (allTests g2) = 50
    /\ ~ NoDup (allTests g2).
Proof.
  destruct (@setupTests_twice TestWorld LiteralRegex BoolJSON BoolSchemas
              SuffixEth double_globals double_literals_evaluate)
    as (g1 & g2 & H1 & H2 & _ & _ & _ & H).
  destruct (H eq_refl) as (_ & L1 & L2 & Hdup & _).
  exists g1, g2. repeat split; assumption.
Defined.

(** ** The result of the run *)

Section RunFacts.
Context {W : Type} {regexp : RegexLib} {json : JSONLib}
  {rpctypes : RPCTypes} {eth : EthLib} {rpc : RPCLib W}.
Implicit Types (g : Globals W) (w : W).


Ltac execute_steps :=
  unfold Execute, RPCFuzzCmd_Args, RPCFuzzCmd_RunE, bind, ret, emit,
    dial_context, lift_res, panic;
  cbn [List.length Nat.eqb negb res logged world fst snd app].

Lemma Execute_bad_arguments args g w :
  List.length args <> 1 ->
  Execute args g w
  = mkOut (Ret (Some (Errorf "Expected 1 argument, but got %d"
                        [VInt (Z.of_nat (List.length args))]), g)) [] w.
Proof.
  intros Hn. execute_steps.
  destruct (Nat.eqb_spec (List.length args) 1) as [E|_]; [contradiction|].
  reflexivity.
Qed.

Lemma Execute_bad_key url g w err :
  HexToECDSA (testPrivateHexKey g) = inl err ->
  Execute [url] g w
  = mkOut (Ret (Some (LibError err), g))
      [line_bad_key err] w.
Proof. intros Hk. execute_steps. rewrite Hk. reflexivity. Qed.

Lemma Execute_no_connection url g w key err w' :
  HexToECDSA (testPrivateHexKey g) = inr key ->
  DialContext url w = (inl err, w') ->
  Execute [url] g w
  = mkOut (Ret (Some (LibError err), set_key key (PubkeyToAddress key) g))
      [line_loaded (AddressString (PubkeyToAddress key))] w'.
Proof.
  intros Hk Hd. execute_steps. rewrite Hk.
  cbn [res logged world fst snd app]. rewrite Hd. reflexivity.
Qed.

Lemma Execute_setup_panics url g w key c w' p :
  HexToECDSA (testPrivateHexKey g) = inr key ->
  DialContext url w = (inr c, w') ->
  setupTests (set_key key (PubkeyToAddress key) g) = Panic p ->
  Execute [url] g w
  = mkOut (Panic p)
      [line_loaded (AddressString (PubkeyToAddress key)); line_setup] w'.
Proof.
  intros Hk Hd Hs. execute_steps. rewrite Hk.
  cbn [res logged world fst snd app]. rewrite Hd.
  cbn [res logged world fst snd app]. rewrite Hs. reflexivity.
Qed.

(** Once the setup is done the loop runs over the whole registry and
    the run returns nil. *)
Lemma Execute_runs url g w key c w' g' :
  HexToECDSA (testPrivateHexKey g) = inr key ->
  DialContext url w = (inr c, w') ->
  setupTests (set_key key (PubkeyToAddress key) g) = Ret g' ->
  let loop := RunE_loop c (map (deref g') (allTests g')) w' in
  Execute [url] g w
  = mkOut (Ret (None, g'))
      (line_loaded (AddressString (PubkeyToAddress key))
         :: line_setup :: logged loop)
      (world loop)
  /\ started (logged loop) = List.length (allTests g').
Proof.
  intros Hk Hd Hs loop.
  assert (Hret : Forall (fun t => returns (Validate t))
                   (map (deref g') (allTests g'))).
  { apply Forall_forall. intros t Ht. apply in_map_iff in Ht.
    destruct Ht as (p & <- & _).
    pose proof Hs as Hwf. apply setupTests_well_formed with (p := p) in Hwf.
    destruct Hwf as (v & Hv & Hst).
    unfold deref, as_RPCTest, RPCTestGeneric_Validate. simpl. rewrite Hv.
    now apply stateless_returns. }
  destruct (RunE_loop_returns c _ Hret w') as [Hr Hstarted].
  fold loop in Hr, Hstarted. rewrite length_map in Hstarted.
  split; [|exact Hstarted].
  execute_steps. rewrite Hk.
  cbn [res logged world fst snd app]. rewrite Hd.
  cbn [res logged world fst snd app]. rewrite Hs.
  cbn [res logged world fst snd app]. fold loop. rewrite Hr.
  cbn [res logged world]. now rewrite app_nil_r.
Qed.

(** C8: the run returns an error exactly when the setup fails (the
    number of arguments, the private key, or the connection), and then
    no test has been started; once a test has been started the run
    returns nil, whatever the verdicts of the tests. *)
Theorem Execute_result (args : list string) g w :
  let out := Execute args g w in
  (forall err g',
     res out = Ret (Some err, g') ->
     SetupFailure args g w err /\ started (logged out) = 0)
  /\ (forall err,
        SetupFailure args g w err ->
        (exists g', res out = Ret (Some err, g'))
        /\ started (logged out) = 0)
  /\ (0 < started (logged out) -> exists g', res out = Ret (None, g')).
Proof.
  cbv zeta.
  destruct (Nat.eq_dec (List.length args) 1) as [Hlen|Hlen].
  2:{ rewrite (Execute_bad_arguments args g w Hlen). cbn [res logged].
      split; [|split].
      - intros err g' H. injection H as <- <-.
        split; [now constructor | reflexivity].
      - intros err Hf. split; [|reflexivity].
        inversion Hf; subst; try (simpl in *; congruence). eauto.
      - cbn. lia. }
  destruct args as [|url [|? ?]]; try discriminate. clear Hlen.
  destruct (HexToECDSA (testPrivateHexKey g)) as [kerr|key] eqn:Hk.
  { rewrite (Execute_bad_key url g w kerr Hk). cbn [res logged].
    split; [|split].
    - intros err g' H. injection H as <- <-.
      split; [now apply BadPrivateKey | reflexivity].
    - intros err Hf. split; [|reflexivity].
      inversion Hf; subst; try (simpl in *; congruence).
      assert (err0 = kerr) by congruence. subst. eauto.
    - cbn. lia. }
  destruct (DialContext url w) as [[derr|c] w'] eqn:Hd.
  { rewrite (Execute_no_connection url g w key derr w' Hk Hd). cbn [res logged].
    split; [|split].
    - intros err g' H. injection H as <- <-.
      split; [|reflexivity].
      eapply NoConnection; eauto.
    - intros err Hf. split; [|reflexivity].
      inversion Hf as [| |url' key' err' w'' Ha Hk' Hd']; subst;
        try (simpl in *; congruence).
      injection Ha as <-. rewrite Hd in Hd'. injection Hd' as <- <-. eauto.
    - cbn. lia. }
  destruct (setupTests (set_key key (PubkeyToAddress key) g))
    as [g'|p] eqn:Hs.
  2:{ rewrite (Execute_setup_panics url g w key c w' p Hk Hd Hs). cbn [res logged].
      split; [|split].
      - discriminate.
      - intros err Hf. inversion Hf; subst; simpl in *; congruence.
      - cbn. lia. }
  destruct (Execute_runs url g w key c w' g' Hk Hd Hs) as [-> _]. cbn [res logged].
  split; [|split].
  - discriminate.
  - intros err Hf. inversion Hf; subst; simpl in *; congruence.
  - eauto.
Qed.

End RunFacts.

(** A run against an endpoint that fails every call: the 25 tests are
    started, none succeeds, and the run returns nil; a run without
    arguments returns the error of the setup. *)
Lemma Execute_result_witness :
  let run := Execute (regexp := LiteralRegex) (json := BoolJSON)
               (rpctypes := BoolSchemas) (eth := SuffixEth)
               (rpc := ScriptedRPC) in
  (exists g',
     res (run ["http://localhost:8545"] double_globals (mkTestWorld [] 0))
     = Ret (None, g'))
  /\ SetupFailure [] double_globals (mkTestWorld [] 0)
       (Errorf "Expected 1 argument, but got %d" [VInt 0]).
Proof.
  split.
  - apply (proj2 (proj2
      (@Execute_result TestWorld LiteralRegex BoolJSON BoolSchemas SuffixEth
         ScriptedRPC ["http://localhost:8545"] double_globals
         (mkTestWorld [] 0)))).
    vm_compute. repeat constructor.
  - apply (proj1
      (@Execute_result TestWorld LiteralRegex BoolJSON BoolSchemas SuffixEth
         ScriptedRPC [] double_globals (mkTestWorld [] 0))
      _ double_globals).
    reflexivity.
Defined.

(** * Further properties of the validators *)

Section ErrorRegexFacts.
Context {W : Type} {regexp : RegexLib}.

(** X1: for a pattern that compiles, the validator of [ValidateError]
    succeeds exactly on the error values whose message has a match; on
    an observed value that is not an error (nil included) it fails
    with the wrong-type diagnostic, and on an error without a match
    with the diagnostic that carries the pattern and the message. *)
Theorem ValidateError_spec (pattern : string) (r : Regexp) :
  MustCompile pattern = Some r ->
  exists v : ValidatorFunc W,
    ValidateError pattern = Ret v
    /\ forall (x : Value) (w : W),
         (v x w = (Ret None, w)
          <-> exists e, x = VError e /\ MatchString r (Error e) = true)
         /\ (dyn_type x <> TError ->
             v x w
             = (Ret (Some (Errorf
                  "Invalid result type. Expected error but got %T" [x])),
                w))
         /\ (forall e, x = VError e -> MatchString r (Error e) = false ->
             v x w
             = (Ret (Some (Errorf "The regex %s failed to match result %s"
                             [VString pattern; VString (Error e)])), w)).
Proof.
  intros Hc.
  destruct (ValidateError (W := W) pattern) as [v|p] eqn:Hv.
  2:{ unfold ValidateError in Hv. rewrite Hc in Hv. discriminate. }
  exists v. split; [reflexivity|].
  destruct (ValidateError_built _ _ Hv) as (r' & Hc' & Hspec).
  assert (r' = r) by congruence. subst r'.
  intros x w. rewrite Hspec. split; [split | split].
  - destruct x; try discriminate.
    destruct (MatchString r (Error e)) eqn:Hm; [eauto | discriminate].
  - intros (e & -> & Hm). now rewrite Hm.
  - destruct x; simpl; congruence.
  - intros e -> Hm. now rewrite Hm.
Qed.

End ErrorRegexFacts.

(** The pattern of the [web3_sha3] error test on the error of the
    endpoint, on another error, on nil and on a string. *)
Lemma ValidateError_spec_witness :
  exists v : ValidatorFunc unit,
    ValidateError (regexp := LiteralRegex)
      "cannot unmarshal hex string without 0x prefix" = Ret v
    /\ v (VError sha3_error) tt = (Ret None, tt)
    /\ v (VError connection_refused) tt
       = (Ret (Some (Errorf "The regex %s failed to match result %s"
                       [VString "cannot unmarshal hex string without 0x prefix";
                        VString (Error connection_refused)])), tt)
    /\ v VNil tt
       = (Ret (Some (Errorf
            "Invalid result type. Expected error but got %T" [VNil])), tt)
    /\ v (VString "cannot unmarshal hex string without 0x prefix") tt
       = (Ret (Some (Errorf
            "Invalid result type. Expected error but got %T"
            [VString "cannot unmarshal hex string without 0x prefix"])), tt).
Proof.
  destruct (@ValidateError_spec unit LiteralRegex
              "cannot unmarshal hex string without 0x prefix"
              "cannot unmarshal hex string without 0x prefix" eq_refl)
    as (v & Hv & Hspec).
  exists v. split; [exact Hv|]. split; [|split; [|split]].
  - apply (proj1 (Hspec _ tt)). eexists. split; reflexivity.
  - apply (proj2 (proj2 (Hspec _ tt))); reflexivity.
  - apply (proj1 (proj2 (Hspec _ tt))). discriminate.
  - apply (proj1 (proj2 (Hspec _ tt))). discriminate.
Defined.

(** X5: [ValidateExact] with an expected slice or map never succeeds:
    on an observed value of the same dynamic type the comparison
    panics, and on any other it fails with the diagnostic of the two
    values. *)
Theorem ValidateExact_uncomparable {W : Type} (expected observed : Value)
  (w : W) :
  structured expected = true ->
  (dyn_type observed = dyn_type expected ->
   ValidateExact expected observed w
   = (Panic "runtime error: comparing uncomparable type", w))
  /\ (dyn_type observed <> dyn_type expected ->
      ValidateExact expected observed w
      = (Ret (Some (Errorf "Expected %v and got %v" [expected; observed])),
         w))
  /\ ValidateExact expected observed w <> (Ret None, w).
Proof.
  intros Hs. unfold ValidateExact.
  destruct expected; try discriminate; destruct observed; simpl;
    repeat split; try congruence; try discriminate.
Qed.

Lemma ValidateExact_uncomparable_witness :
  ValidateExact (VSlice []) (VSlice [VString "0x1"]) tt
  = (Panic "runtime error: comparing uncomparable type", tt)
  /\ ValidateExact (VSlice []) (VMap []) tt
     = (Ret (Some (Errorf "Expected %v and got %v" [VSlice []; VMap []])),
        tt).
Proof.
  split.
  - apply (proj1 (ValidateExact_uncomparable (VSlice [])
                    (VSlice [VString "0x1"]) tt eq_refl)).
    reflexivity.
  - apply (proj1 (proj2 (ValidateExact_uncomparable (VSlice []) (VMap [])
                           tt eq_refl))).
    discriminate.
Defined.

(** * Further properties of the chain *)

Section ChainLaws.
Context {W : Type}.
Implicit Types (v : ValidatorFunc W)
  (vs pre post xs ys : list (ValidatorFunc W)).

Lemma chain_loop_diagnostic vs x w e w' :
  chain_loop vs x w = (Ret (Some e), w') ->
  e = Errorf "All Validation failed" [].
Proof.
  revert w; induction vs as [|v vs IH]; intros w; simpl.
  - intros H. now injection H as <- _.
  - destruct (v x w) as [[[e'|]|p] w1]; try discriminate. apply IH.
Qed.

Lemma chain_loop_inversion vs x : forall w r w',
  chain_loop vs x w = (r, w') ->
  match r with
  | Ret None =>
      exists pre v post w1,
        vs = pre ++ v :: post
        /\ all_fail pre x w w1 /\ v x w1 = (Ret None, w')
  | Ret (Some e) =>
      e = Errorf "All Validation failed" [] /\ all_fail vs x w w'
  | Panic p =>
      exists pre v post w1,
        vs = pre ++ v :: post
        /\ all_fail pre x w w1 /\ v x w1 = (Panic p, w')
  end.
Proof.
  induction vs as [|v vs IH]; intros w r w'; simpl.
  - intros H. injection H as <- <-. split; [reflexivity | constructor].
  - destruct (v x w) as [[[e|]|p] w1] eqn:Hv.
    + intros H. specialize (IH _ _ _ H).
      destruct r as [[e'|]|p].
      * destruct IH as [-> Hall]. split; [reflexivity|].
        econstructor; eassumption.
      * destruct IH as (pre & v' & post & w2 & -> & Hall & Hv').
        exists (v :: pre), v', post, w2.
        repeat split; [econstructor; eassumption | assumption].
      * destruct IH as (pre & v' & post & w2 & -> & Hall & Hv').
        exists (v :: pre), v', post, w2.
        repeat split; [econstructor; eassumption | assumption].
    + intros H. injection H as <- <-.
      exists [], v, vs, w. repeat split; [constructor | assumption].
    + intros H. injection H as <- <-.
      exists [], v, vs, w. repeat split; [constructor | assumption].
Qed.

(** X3: what an outcome of a chain tells.  Success: some validator
    succeeded after all those before it had failed, and the world is
    the one it left.  Failure: every validator failed, and the
    diagnostic is the generic one.  Panic: some validator panicked
    after all those before it had failed. *)
Theorem ChainValidator_outcomes vs (x : Value) (w w' : W)
  (r : Res (option error)) :
  ChainValidator vs x w = (r, w') ->
  match r with
  | Ret None =>
      exists pre v post w1,
        vs = pre ++ v :: post
        /\ all_fail pre x w w1 /\ v x w1 = (Ret None, w')
  | Ret (Some e) =>
      e = Errorf "All Validation failed" [] /\ all_fail vs x w w'
  | Panic p =>
      exists pre v post w1,
        vs = pre ++ v :: post
        /\ all_fail pre x w w1 /\ v x w1 = (Panic p, w')
  end.
Proof. apply chain_loop_inversion. Qed.

(** X4: a validator that panics after the ones before it have failed
    makes the chain panic with its reason; the validators after it are
    not applied, so they can be any. *)
Theorem ChainValidator_panics pre v post (x : Value) (w w1 w2 : W)
  (p : string) :
  all_fail pre x w w1 ->
  v x w1 = (Panic p, w2) ->
  ChainValidator (pre ++ v :: post) x w = (Panic p, w2).
Proof.
  intros Hpre Hv. unfold ChainValidator.
  rewrite (chain_loop_skip pre (v :: post) x w w1 Hpre). simpl.
  now rewrite Hv.
Qed.

(** X2: a chain of two chains is the chain of the two sequences put
    one after the other. *)
Theorem ChainValidator_flatten xs ys (x : Value) (w : W) :
  ChainValidator [ChainValidator xs; ChainValidator ys] x w
  = ChainValidator (xs ++ ys) x w.
Proof.
  unfold ChainValidator. cbn [chain_loop].
  destruct (chain_loop xs x w) as [r w1] eqn:Hxs.
  pose proof (chain_loop_inversion xs x w r w1 Hxs) as Hinv.
  destruct r as [[e|]|p].
  - destruct Hinv as [_ Hall].
    rewrite (chain_loop_skip xs ys x w w1 Hall).
    destruct (chain_loop ys x w1) as [[[e'|]|p] w2] eqn:Hys;
      try reflexivity.
    now rewrite (chain_loop_diagnostic ys x w1 e' w2 Hys).
  - destruct Hinv as (pre & v & post & w0 & -> & Hall & Hv).
    rewrite <- app_assoc. cbn [app].
    rewrite (chain_loop_skip pre (v :: post ++ ys) x w w0 Hall).
    simpl. now rewrite Hv.
  - destruct Hinv as (pre & v & post & w0 & -> & Hall & Hv).
    rewrite <- app_assoc. cbn [app].
    rewrite (chain_loop_skip pre (v :: post ++ ys) x w w0 Hall).
    simpl. now rewrite Hv.
Qed.

(** X6: with stateless validators a chain succeeds exactly when one of
    its members does, in whatever position; when none does it fails
    with the generic diagnostic. *)
Theorem ChainValidator_any vs (x : Value) (w : W) :
  Forall stateless vs ->
  (ChainValidator vs x w = (Ret None, w)
   <-> Exists (fun v => v x w = (Ret None, w)) vs)
  /\ (~ Exists (fun v => v x w = (Ret None, w)) vs ->
      ChainValidator vs x w
      = (Ret (Some (Errorf "All Validation failed" [])), w)).
Proof.
  unfold ChainValidator.
  induction 1 as [|v vs [f Hf] _ [IH1 IH2]]; simpl.
  - split; [split|]; try discriminate; try reflexivity.
    intros H. inversion H.
  - rewrite Hf. destruct (f x) as [e|] eqn:Hfx.
    + split; [split|].
      * intros H. apply Exists_cons_tl. now apply IH1.
      * intros H. apply IH1. inversion H as [? ? Hv|]; subst; [|assumption].
        rewrite Hf, Hfx in Hv. discriminate.
      * intros H. apply IH2. intros H'. apply H. now apply Exists_cons_tl.
    + split; [split|].
      * intros _. apply Exists_cons_hd. now rewrite Hf, Hfx.
      * reflexivity.
      * intros H. elim H. apply Exists_cons_hd. now rewrite Hf, Hfx.
Qed.

End ChainLaws.

(** The chain of the two counted validators of [eth_mining]: inside a
    chain with others, and on its own. *)
Lemma ChainValidator_flatten_witness :
  ChainValidator
    [ChainValidator [counting (ValidateExact (VBool true))];
     ChainValidator [counting (ValidateExact (VBool false)); exploding]]
    (VBool false) (mkTestWorld [] 0)
  = (Ret None, mkTestWorld [] 2).
Proof.
  rewrite (ChainValidator_flatten
             [counting (ValidateExact (VBool true))]
             [counting (ValidateExact (VBool false)); exploding]
             (VBool false) (mkTestWorld [] 0)).
  reflexivity.
Defined.

Lemma ChainValidator_outcomes_witness :
  all_fail
    [counting (ValidateExact (VBool true));
     counting (ValidateExact (VString "false"))]
    (VBool false) (mkTestWorld [] 0) (mkTestWorld [] 2).
Proof.
  exact (proj2 (ChainValidator_outcomes
    [counting (ValidateExact (VBool true));
     counting (ValidateExact (VString "false"))]
    (VBool false) (mkTestWorld [] 0) (mkTestWorld [] 2)
    (Ret (Some (Errorf "All Validation failed" []))) eq_refl)).
Defined.

Lemma ChainValidator_panics_witness :
  ChainValidator
    [counting (ValidateExact (VBool true)); exploding;
     counting (ValidateExact (VBool false))]
    (VBool false) (mkTestWorld [] 0)
  = (Panic "unreachable", mkTestWorld [] 1).
Proof.
  apply (@ChainValidator_panics TestWorld
           [counting (ValidateExact (VBool true))] exploding
           [counting (ValidateExact (VBool false))]
           (VBool false) (mkTestWorld [] 0) (mkTestWorld [] 1)
           (mkTestWorld [] 1) "unreachable").
  - eapply all_fail_cons; [reflexivity | apply all_fail_nil].
  - reflexivity.
Defined.

Lemma ChainValidator_any_witness :
  ChainValidator (W := unit)
    [ValidateExact (VBool true); ValidateExact (VBool false)]
    (VBool false) tt
  = (Ret None, tt)
  /\ ChainValidator (W := unit)
       [ValidateExact (VBool true); ValidateExact (VBool false)]
       (VString "false") tt
     = (Ret (Some (Errorf "All Validation failed" [])), tt).
Proof.
  assert (Hst : Forall (stateless (W := unit))
                  [ValidateExact (VBool true); ValidateExact (VBool false)]).
  { repeat constructor; now apply ValidateExact_stateless. }
  split.
  - apply (proj1 (ChainValidator_any _ (VBool false) tt Hst)).
    apply Exists_cons_tl, Exists_cons_hd. reflexivity.
  - apply (proj2 (ChainValidator_any _ (VString "false") tt Hst)).
    intros H. inversion H as [? ? H1|? ? H1]; subst; [discriminate H1|].
    inversion H1 as [? ? H2|? ? H2]; subst; [discriminate H2 | inversion H2].
Defined.

(** * Further properties of the loop *)

Section LoopLaws.
Context {W : Type} {rpc : RPCLib W}.
Implicit Types (t : RPCTest W) (w : W).

(** X7: a call that fails when the test expects no error is recorded
    as a call failure, and the validator of the test is not applied:
    the same test with any other validator runs the same. *)
Theorem unexpected_call_error_skips_validator (rpcClient : Client) t w
  (e : ErrObj) (w' : W) :
  ExpectError t = false ->
  CallContext rpcClient (GetMethod t) (GetArgs t) w = (CallErr e, w') ->
  run_test rpcClient t w
  = mkOut (Ret tt)
      [line_running (GetMethod t); line_call_failed e (GetMethod t)] w'
  /\ verdicts (logged (run_test rpcClient t w))
     = [(GetMethod t, CallFailure)]
  /\ forall v' : ValidatorFunc W,
       run_test rpcClient (mkRPCTest (GetMethod t) (GetArgs t) v' false) w
       = run_test rpcClient t w.
Proof.
  intros Hx Hc.
  rewrite (run_test_call_failed rpcClient t w e w' Hx Hc).
  split; [reflexivity|]. split; [reflexivity|].
  intros v'.
  now rewrite (run_test_call_failed rpcClient
                 (mkRPCTest (GetMethod t) (GetArgs t) v' false) w e w'
                 eq_refl Hc).
Qed.

(** X10: in every other case the validator is applied to the error if
    the test expects one, and to the result otherwise, and its answer
    is the verdict: success on nil, a validation failure that carries
    the diagnostic otherwise. *)
Theorem run_test_routes_observed (rpcClient : Client) t w
  (o : CallOutcome) (w' : W) (verr : option error) (w'' : W) :
  CallContext rpcClient (GetMethod t) (GetArgs t) w = (o, w') ->
  (forall e, o = CallErr e -> ExpectError t = true) ->
  Validate t (observed t o) w' = (Ret verr, w'') ->
  let out := run_test rpcClient t w in
  res out = Ret tt
  /\ world out = w''
  /\ logged out
     = [line_running (GetMethod t);
        match verr with
        | Some d => line_invalid d (GetMethod t)
        | None => line_valid (GetMethod t)
        end]
  /\ verdicts (logged out)
     = [(GetMethod t,
         match verr with Some _ => ValidationFailure | None => Success end)].
Proof.
  intros Hc Hx Hv. cbv zeta.
  rewrite (run_test_validated rpcClient t w o w' verr w'' Hc Hx Hv).
  destruct verr; repeat split; reflexivity.
Qed.

Lemma run_test_panics (rpcClient : Client) t w o w' p w'' :
  CallContext rpcClient (GetMethod t) (GetArgs t) w = (o, w') ->
  (forall e, o = CallErr e -> ExpectError t = true) ->
  Validate t (observed t o) w' = (Panic p, w'') ->
  run_test rpcClient t w
  = mkOut (Panic p) [line_running (GetMethod t)] w''.
Proof.
  intros Hc Hx Hv. run_test_steps. rewrite Hc.
  destruct o as [x|e]; simpl in *.
  - destruct (ExpectError t); simpl; rewrite Hv; reflexivity.
  - rewrite (Hx e eq_refl). simpl. rewrite Hv. reflexivity.
Qed.

(** X8: nothing recovers from a validator that panics: the loop stops
    in that test, after the line that announces it; the test gets no
    verdict and the tests after it are not started. *)
Theorem validator_panic_aborts (rpcClient : Client)
  (pre post : list (RPCTest W)) t w
  (o : CallOutcome) (w1 w2 : W) (p : string) :
  res (RunE_loop rpcClient pre w) = Ret tt ->
  CallContext rpcClient (GetMethod t) (GetArgs t)
    (world (RunE_loop rpcClient pre w)) = (o, w1) ->
  (forall e, o = CallErr e -> ExpectError t = true) ->
  Validate t (observed t o) w1 = (Panic p, w2) ->
  let out := RunE_loop rpcClient (pre ++ t :: post) w in
  res out = Panic p
  /\ logged out
     = logged (RunE_loop rpcClient pre w) ++ [line_running (GetMethod t)]
  /\ world out = w2.
Proof.
  intros Hpre Hc Hx Hv. cbv zeta.
  rewrite RunE_loop_app. unfold bind. rewrite Hpre.
  cbn [RunE_loop res logged world]. unfold bind.
  rewrite (run_test_panics rpcClient t _ o w1 p w2 Hc Hx Hv).
  cbn [res logged world]. repeat split; reflexivity.
Qed.

Lemma run_test_lines (rpcClient : Client) t w :
  returns (Validate t) ->
  res (run_test rpcClient t w) = Ret tt
  /\ exists l verdict,
       logged (run_test rpcClient t w) = [line_running (GetMethod t); l]
       /\ verdict_of_line l = Some (GetMethod t, verdict).
Proof.
  intros Hr.
  destruct (CallContext rpcClient (GetMethod t) (GetArgs t) w)
    as [o w'] eqn:Hc.
  assert (Hval : (forall e, o = CallErr e -> ExpectError t = true) ->
          res (run_test rpcClient t w) = Ret tt
          /\ exists l verdict,
               logged (run_test rpcClient t w)
               = [line_running (GetMethod t); l]
               /\ verdict_of_line l = Some (GetMethod t, verdict)).
  { intros Hx. destruct (Hr (observed t o) w') as (verr & w'' & Hv).
    rewrite (run_test_validated rpcClient t w o w' verr w'' Hc Hx Hv).
    split; [reflexivity|].
    destruct verr; do 2 eexists; split; reflexivity. }
  destruct o as [x|e]; [apply Hval; discriminate|].
  destruct (ExpectError t) eqn:Hx; [apply Hval; auto|].
  rewrite (run_test_call_failed rpcClient t w e w' Hx Hc).
  split; [reflexivity|]. do 2 eexists; split; reflexivity.
Qed.

Lemma RunE_loop_lines (rpcClient : Client) (tests : list (RPCTest W)) :
  Forall (fun t => returns (Validate t)) tests ->
  forall w,
    res (RunE_loop rpcClient tests w) = Ret tt
    /\ map fst (verdicts (logged (RunE_loop rpcClient tests w)))
       = map (@GetMethod W) tests
    /\ List.length (logged (RunE_loop rpcClient tests w))
       = 2 * List.length tests.
Proof.
  induction 1 as [|t tests Ht _ IH]; intros w; cbn [RunE_loop].
  - repeat split; reflexivity.
  - unfold bind.
    destruct (run_test_lines rpcClient t w Ht) as (Hr & l & vd & Hl & Hvl).
    rewrite Hr. cbn [res logged world].
    destruct (IH (world (run_test rpcClient t w))) as (Hr' & Hm & Hn).
    split; [exact Hr'|]. rewrite Hl. split.
    + cbn [app verdicts]. change (verdict_of_line (line_running (GetMethod t)))
        with (@None (string * Verdict)). cbv iota. rewrite Hvl.
      cbn [map fst]. now rewrite Hm.
    + cbn [app List.length]. rewrite Hn. simpl. lia.
Qed.

(** X9: with validators that return, whatever they do to the world and
    whatever the endpoint answers, the loop reaches its end and logs
    two lines for every test, in the order of the registry: the line
    that announces it and the line of its verdict. *)
Theorem RunE_loop_one_verdict_each (rpcClient : Client)
  (tests : list (RPCTest W)) w :
  Forall (fun t => returns (Validate t)) tests ->
  let out := RunE_loop rpcClient tests w in
  res out = Ret tt
  /\ map fst (verdicts (logged out)) = map (@GetMethod W) tests
  /\ List.length (logged out) = 2 * List.length tests
  /\ started (logged out) = List.length tests.
Proof.
  intros Hret. cbv zeta.
  destruct (RunE_loop_lines rpcClient tests Hret w) as (Hr & Hm & Hn).
  destruct (RunE_loop_returns rpcClient tests Hret w) as [_ Hs].
  repeat split; assumption.
Qed.

(** X11: a test whose [Validator] field is nil panics as soon as the
    loop validates it; it only gets a verdict when its call fails and
    no error is expected, since the validator is not reached then. *)
Theorem nil_validator_panics (rpcClient : Client) (r : RPCTestGeneric W) w
  (o : CallOutcome) (w' : W) :
  Validator r = None ->
  CallContext rpcClient (Method r) (Args r) w = (o, w') ->
  run_test rpcClient (as_RPCTest r) w
  = match o, IsError r with
    | CallErr e, false =>
        mkOut (Ret tt) [line_running (Method r); line_call_failed e (Method r)]
          w'
    | _, _ =>
        mkOut
          (Panic
             "runtime error: invalid memory address or nil pointer dereference")
          [line_running (Method r)] w'
    end.
Proof.
  intros Hn Hc. run_test_steps. rewrite Hc.
  unfold RPCTestGeneric_Validate.
  destruct o as [x|e]; destruct (IsError r); simpl; rewrite ?Hn; reflexivity.
Qed.

End LoopLaws.

(** [net_listening] when the connection is refused: the validator, one
    that would panic, is not reached. *)
Lemma unexpected_call_error_skips_validator_witness :
  run_test (rpc := ScriptedRPC) tt
    (mkRPCTest "net_listening" [] exploding false)
    (mkTestWorld [CallErr connection_refused] 0)
  = mkOut (Ret tt)
      [line_running "net_listening";
       line_call_failed connection_refused "net_listening"]
      (mkTestWorld [] 0).
Proof.
  apply (proj1 (@unexpected_call_error_skips_validator TestWorld ScriptedRPC
    tt (mkRPCTest "net_listening" [] exploding false)
    (mkTestWorld [CallErr connection_refused] 0) connection_refused
    (mkTestWorld [] 0) eq_refl eq_refl)).
Defined.

(** [net_listening] on the results [true] and [false]. *)
Lemma run_test_routes_observed_witness :
  verdicts (logged (run_test (rpc := ScriptedRPC) tt
                      (mkRPCTest "net_listening" []
                         (ValidateExact (VBool true)) false)
                      (mkTestWorld [CallOk (VBool true)] 0)))
  = [("net_listening", Success)]
  /\ verdicts (logged (run_test (rpc := ScriptedRPC) tt
                         (mkRPCTest "net_listening" []
                            (ValidateExact (VBool true)) false)
                         (mkTestWorld [CallOk (VBool false)] 0)))
     = [("net_listening", ValidationFailure)].
Proof.
  split.
  - apply (proj2 (proj2 (proj2
      (@run_test_routes_observed TestWorld ScriptedRPC tt
         (mkRPCTest "net_listening" [] (ValidateExact (VBool true)) false)
         (mkTestWorld [CallOk (VBool true)] 0) (CallOk (VBool true))
         (mkTestWorld [] 0) None (mkTestWorld [] 0)
         eq_refl ltac:(discriminate) eq_refl)))).
  - apply (proj2 (proj2 (proj2
      (@run_test_routes_observed TestWorld ScriptedRPC tt
         (mkRPCTest "net_listening" [] (ValidateExact (VBool true)) false)
         (mkTestWorld [CallOk (VBool false)] 0) (CallOk (VBool false))
         (mkTestWorld [] 0)
         (Some (Errorf "Expected %v and got %v" [VBool true; VBool false]))
         (mkTestWorld [] 0)
         eq_refl ltac:(discriminate) eq_refl)))).
Defined.

(** A test that expects a slice exactly, between two others: the loop
    stops in it. *)
Lemma validator_panic_aborts_witness :
  let out := RunE_loop (rpc := ScriptedRPC) tt
               ([mkRPCTest "net_listening" []
                   (ValidateExact (VBool true)) false]
                ++ mkRPCTest "eth_accounts" []
                     (ValidateExact (VSlice [])) false
                   :: [mkRPCTest "eth_mining" []
                         (ValidateExact (VBool false)) false])
               (mkTestWorld
                  [CallOk (VBool true); CallOk (VSlice []);
                   CallOk (VBool false)] 0) in
  res out = Panic "runtime error: comparing uncomparable type"
  /\ logged out
     = [line_running "net_listening"; line_valid "net_listening";
        line_running "eth_accounts"]
  /\ world out = mkTestWorld [CallOk (VBool false)] 0.
Proof.
  apply (@validator_panic_aborts TestWorld ScriptedRPC tt
    [mkRPCTest "net_listening" [] (ValidateExact (VBool true)) false]
    [mkRPCTest "eth_mining" [] (ValidateExact (VBool false)) false]
    (mkRPCTest "eth_accounts" [] (ValidateExact (VSlice [])) false)
    (mkTestWorld [CallOk (VBool true); CallOk (VSlice []);
                  CallOk (VBool false)] 0)
    (CallOk (VSlice [])) (mkTestWorld [CallOk (VBool false)] 0)
    (mkTestWorld [CallOk (VBool false)] 0)
    "runtime error: comparing uncomparable type"
    eq_refl eq_refl ltac:(discriminate) eq_refl).
Defined.

(** [three_tests] with counted validators and no outcome left in the
    script: six lines. *)
Lemma RunE_loop_one_verdict_each_witness :
  List.length
    (logged (RunE_loop (rpc := ScriptedRPC) tt
               (map (fun t => mkRPCTest (GetMethod t) (GetArgs t)
                                (counting (Validate t)) (ExpectError t))
                    three_tests)
               (mkTestWorld [] 0)))
  = 6.
Proof.
  assert (Hret : Forall (fun t : RPCTest TestWorld => returns (Validate t))
            (map (fun t => mkRPCTest (GetMethod t) (GetArgs t)
                             (counting (Validate t)) (ExpectError t))
                 three_tests)).
  { repeat constructor; intros x w; simpl; unfold counting.
    - apply (stateless_returns _
               (ValidateExact_stateless (VBool true) eq_refl)).
    - apply (stateless_returns _
               (ValidateError_stateless (regexp := LiteralRegex)
                  "cannot unmarshal hex string without 0x prefix" _ eq_refl)).
    - apply (stateless_returns _
               (ChainValidator_stateless _
                  (Forall_cons _
                     (ValidateExact_stateless (VBool true) eq_refl)
                     (Forall_cons _
                        (ValidateExact_stateless (VBool false) eq_refl)
                        (Forall_nil _))))). }
  exact (proj1 (proj2 (proj2
    (@RunE_loop_one_verdict_each TestWorld ScriptedRPC tt _
       (mkTestWorld [] 0) Hret)))).
Defined.

(** The zero value of [RPCTestGeneric] against an endpoint that
    answers: a panic; against one that refuses: a call failure. *)
Lemma nil_validator_panics_witness :
  res (run_test (rpc := ScriptedRPC) tt (as_RPCTest zero_RPCTestGeneric)
         (mkTestWorld [CallOk VNil] 0))
  = Panic "runtime error: invalid memory address or nil pointer dereference"
  /\ res (run_test (rpc := ScriptedRPC) tt (as_RPCTest zero_RPCTestGeneric)
            (mkTestWorld [CallErr connection_refused] 0))
     = Ret tt.
Proof.
  split.
  - rewrite (@nil_validator_panics TestWorld ScriptedRPC tt
               zero_RPCTestGeneric (mkTestWorld [CallOk VNil] 0)
               (CallOk VNil) (mkTestWorld [] 0) eq_refl eq_refl).
    reflexivity.
  - rewrite (@nil_validator_panics TestWorld ScriptedRPC tt
               zero_RPCTestGeneric
               (mkTestWorld [CallErr connection_refused] 0)
               (CallErr connection_refused) (mkTestWorld [] 0)
               eq_refl eq_refl).
    reflexivity.
Defined.

(** * Further properties of the setup *)

Lemma substring_all (s : string) : substring 0 (String.length s) s = s.
Proof. induction s as [|c s IH]; simpl; congruence. Qed.

Lemma ToLower_length (s : string) :
  String.length (ToLower s) = String.length s.
Proof. induction s as [|c s IH]; simpl; congruence. Qed.

Section SetupLaws.
Context {W : Type} {regexp : RegexLib} {json : JSONLib}
  {rpctypes : RPCTypes} {eth : EthLib}.
Implicit Types (g h : Globals W) (r : RPCTestGeneric W)
  (entries : list (TestVar * Res (RPCTestGeneric W))).

Lemma setup_fold_entries entries : forall g g',
  fold_left (@setup_step W eth) entries (Ret g) = Ret g' ->
  Forall (fun entry => exists r, snd entry = Ret r) entries.
Proof.
  induction entries as [|[q rr] entries IH]; intros g g'; simpl.
  - constructor.
  - destruct rr as [r|s]; simpl.
    + intros H. constructor; [exists r; reflexivity | exact (IH _ _ H)].
    + rewrite setup_fold_panic. discriminate.
Qed.

Lemma setup_fold_same_panic entries : forall g h p,
  fold_left (@setup_step W eth) entries (Ret g) = Panic p ->
  fold_left (@setup_step W eth) entries (Ret h) = Panic p.
Proof.
  induction entries as [|[q rr] entries IH]; intros g h p; simpl.
  - discriminate.
  - destruct rr as [r|s]; simpl; [apply IH|].
    now rewrite !setup_fold_panic.
Qed.

(** X12: what [setupTests] leaves in the test variables depends on the
    address and the contract address only, not on what the variables
    or [allTests] held: under the same configuration it returns or
    panics alike, assigns the same literals and appends the same 25
    pointers. *)
Theorem setupTests_determined_by_configuration g h :
  testEthAddress h = testEthAddress g ->
  testContractAddress h = testContractAddress g ->
  (forall g',
     setupTests g = Ret g' ->
     exists h',
       setupTests h = Ret h'
       /\ (forall p, vars h' p = vars g' p)
       /\ allTests h' = allTests h ++ catalog_vars)
  /\ (forall p, setupTests g = Panic p -> setupTests h = Panic p).
Proof.
  intros Ha Hc. unfold setupTests.
  rewrite (catalog_config g h Ha Hc). split.
  - intros g' Hg.
    pose proof (setup_fold_entries (catalog g) g g' Hg) as Hall.
    destruct (setup_fold_total (catalog g) Hall h) as [h' Hh].
    exists h'. split; [exact Hh|]. split.
    + intros p.
      assert (Hnd : NoDup (map fst (catalog g))).
      { rewrite catalog_fst. apply catalog_vars_NoDup. }
      assert (Hin : In p (map fst (catalog g))).
      { rewrite catalog_fst. apply catalog_vars_complete. }
      apply in_map_iff in Hin. destruct Hin as ([q rr] & Hq & Hin).
      simpl in Hq. subst q.
      pose proof (setup_fold_lookup (catalog g) Hnd g g' Hg p rr Hin) as E1.
      pose proof (setup_fold_lookup (catalog g) Hnd h h' Hh p rr Hin) as E2.
      congruence.
    + destruct (setup_fold_ret (catalog g) h h' Hh) as (Hl & _).
      now rewrite Hl, catalog_fst.
  - intros p. apply setup_fold_same_panic.
Qed.

Lemma generic_method method args isError (c : Res (ValidatorFunc W)) r :
  generic method args isError c = Ret r -> Method r = method.
Proof.
  unfold generic. destruct c as [v|p]; simpl; [|discriminate].
  intros H. now injection H as <-.
Qed.

Lemma catalog_methods g :
  Forall (fun entry => forall r, snd entry = Ret r -> Method r <> "")
    (catalog g).
Proof.
  unfold catalog.
  repeat (apply Forall_cons;
          [cbn [snd]; intros r H; apply generic_method in H; rewrite H;
           discriminate|]).
  apply Forall_nil.
Qed.

Lemma registry_returns g g' :
  setupTests g = Ret g' ->
  Forall (fun t => returns (Validate t)) (map (deref g') (allTests g')).
Proof.
  intros Hs. apply Forall_forall. intros t Ht. apply in_map_iff in Ht.
  destruct Ht as (p & <- & _).
  destruct (setupTests_well_formed g g' Hs p) as (v & Hv & Hst).
  unfold deref, as_RPCTest, RPCTestGeneric_Validate. simpl. rewrite Hv.
  now apply stateless_returns.
Qed.

(** X13: when [setupTests] returns, the configuration is as it was,
    every test variable is registered, and each holds a method name
    that is not empty and a validator that is not nil and always
    returns, whatever the variables held before. *)
Theorem setupTests_registers_usable_tests g g' :
  setupTests g = Ret g' ->
  testEthAddress g' = testEthAddress g
  /\ testContractAddress g' = testContractAddress g
  /\ testPrivateHexKey g' = testPrivateHexKey g
  /\ testPrivateKey g' = testPrivateKey g
  /\ forall p,
       In p (allTests g')
       /\ Method (vars g' p) <> ""
       /\ exists v, Validator (vars g' p) = Some v /\ returns v.
Proof.
  intros Hs.
  destruct (setup_fold_ret (catalog g) g g' Hs) as (Hl & Ha & Hc & Hk & Hp).
  repeat (split; [assumption|]).
  intros p. split; [|split].
  - rewrite Hl, catalog_fst. apply in_or_app. right.
    apply catalog_vars_complete.
  - apply (setup_fold_vars (fun r => Method r <> "") (catalog g)
             (catalog_methods g) g g' Hs).
    left. rewrite catalog_fst. apply catalog_vars_complete.
  - destruct (setupTests_well_formed g g' Hs p) as (v & Hv & Hst).
    exists v. split; [exact Hv | now apply stateless_returns].
Qed.

(** X14: the pattern of the storage tests.  When the text of the
    address has at least two characters, they are dropped and the rest
    is put in lower case between the 24 zeros and the end anchor; a
    shorter text makes the slice expression panic. *)
Theorem storage_pattern_spec g :
  (forall c1 c2 rest,
     AddressString (testEthAddress g) = String c1 (String c2 rest) ->
     storage_pattern g
     = Ret ("^0x000000000000000000000000" ++ ToLower rest ++ "$")%string)
  /\ (String.length (AddressString (testEthAddress g)) < 2 ->
      storage_pattern g = Panic "runtime error: slice bounds out of range").
Proof.
  unfold storage_pattern, slice_from. split.
  - intros c1 c2 rest ->. cbn [ToLower String.length].
    cbn [Nat.leb Nat.sub substring bindR].
    rewrite Nat.sub_0_r, substring_all. reflexivity.
  - intros Hlt. rewrite ToLower_length.
    destruct (Nat.leb_spec 2 (String.length (AddressString (testEthAddress g))))
      as [Hle|_]; [lia | reflexivity].
Qed.

End SetupLaws.

(** The storage pattern of the sender of the default key. *)
Lemma storage_pattern_spec_witness :
  storage_pattern (eth := SuffixEth)
    (set_key (eth := SuffixEth) codeQualityPrivateKey
       (PubkeyToAddress (EthLib := SuffixEth) codeQualityPrivateKey)
       double_globals)
  = Ret "^0x000000000000000000000000784c71b2a7a01f6480dc6f58258f78e539f1a1fa$".
Proof.
  exact (proj1 (@storage_pattern_spec TestWorld SuffixEth
    (set_key (eth := SuffixEth) codeQualityPrivateKey
       (PubkeyToAddress (EthLib := SuffixEth) codeQualityPrivateKey)
       double_globals))
    "0"%char "x"%char "784c71b2a7a01f6480dc6f58258f78e539f1a1fa" eq_refl).
Defined.

(** [setupTests] on the default configuration, from the empty registry
    and from one that already holds a pointer to a zero variable. *)
Lemma setupTests_determined_by_configuration_witness :
  exists h',
    setupTests (regexp := LiteralRegex) (json := BoolJSON)
      (rpctypes := BoolSchemas)
      (declare RPCTestNetVersion zero_RPCTestGeneric double_globals)
    = Ret h'
    /\ allTests h' = RPCTestNetVersion :: catalog_vars.
Proof.
  destruct (setupTests_total (regexp := LiteralRegex) (json := BoolJSON)
              (rpctypes := BoolSchemas) double_globals
              double_literals_evaluate) as [g' Hg].
  destruct (proj1 (@setupTests_determined_by_configuration TestWorld
              LiteralRegex BoolJSON BoolSchemas SuffixEth double_globals
              (declare RPCTestNetVersion zero_RPCTestGeneric double_globals)
              eq_refl eq_refl) g' Hg) as (h' & Hh & _ & Hl).
  exists h'. split; [exact Hh | exact Hl].
Defined.

Lemma setupTests_registers_usable_tests_witness :
  exists g',
    setupTests (regexp := LiteralRegex) (json := BoolJSON)
      (rpctypes := BoolSchemas) double_globals = Ret g'
    /\ forall p,
         In p (allTests g')
         /\ Method (vars g' p) <> ""
         /\ exists v, Validator (vars g' p) = Some v /\ returns v.
Proof.
  destruct (setupTests_total (regexp := LiteralRegex) (json := BoolJSON)
              (rpctypes := BoolSchemas) double_globals
              double_literals_evaluate) as [g' Hg].
  exists g'. split; [exact Hg|].
  apply (@setupTests_registers_usable_tests TestWorld LiteralRegex BoolJSON
           BoolSchemas SuffixEth double_globals g' Hg).
Defined.

(** * Further properties of the command *)

Section CommandLaws.
Context {W : Type} {regexp : RegexLib} {json : JSONLib}
  {rpctypes : RPCTypes} {eth : EthLib} {rpc : RPCLib W}.
Implicit Types (g : Globals W) (w : W).

(** X15: [Args] makes no call and leaves the registry, the test
    variables and the two flags as they are.  It returns nil exactly
    when there is one argument and the key parses, and then it has
    stored the key and the address derived from it; when it returns an
    error no variable has changed. *)
Theorem RPCFuzzCmd_Args_effect (args : list string) g w :
  let out := RPCFuzzCmd_Args args g w in
  world out = w
  /\ exists r g',
       res out = Ret (r, g')
       /\ allTests g' = allTests g
       /\ vars g' = vars g
       /\ testPrivateHexKey g' = testPrivateHexKey g
       /\ testContractAddress g' = testContractAddress g
       /\ match r with
          | None =>
              List.length args = 1
              /\ exists key,
                   HexToECDSA (testPrivateHexKey g) = inr key
                   /\ testPrivateKey g' = Some key
                   /\ testEthAddress g' = PubkeyToAddress key
          | Some _ =>
              g' = g
              /\ (List.length args <> 1
                  \/ exists err, HexToECDSA (testPrivateHexKey g) = inl err)
          end.
Proof.
  cbv zeta. unfold RPCFuzzCmd_Args.
  destruct (Nat.eqb_spec (List.length args) 1) as [Hlen|Hlen]; cbn [negb].
  - destruct (HexToECDSA (testPrivateHexKey g)) as [err|key] eqn:Hk;
      unfold bind, emit, ret; cbn [res logged world].
    + split; [reflexivity|]. exists (Some (LibError err)), g.
      repeat split; eauto.
    + split; [reflexivity|].
      exists None, (set_key key (PubkeyToAddress key) g).
      repeat split; eauto.
  - unfold ret; cbn [res world]. split; [reflexivity|].
    eexists _, g. repeat split; auto.
Qed.

(** X16: a run that returns an error has not run [setupTests]: the
    registry and the test variables are as they were. *)
Theorem Execute_failed_setup_keeps_registry (args : list string) g w
  (err : error) (g' : Globals W) :
  res (Execute args g w) = Ret (Some err, g') ->
  allTests g' = allTests g /\ vars g' = vars g.
Proof.
  destruct (Nat.eq_dec (List.length args) 1) as [Hlen|Hlen].
  2:{ rewrite (Execute_bad_arguments args g w Hlen). cbn [res].
      intros H. injection H as _ <-. split; reflexivity. }
  destruct args as [|url [|? ?]]; try discriminate. clear Hlen.
  destruct (HexToECDSA (testPrivateHexKey g)) as [kerr|key] eqn:Hk.
  { rewrite (Execute_bad_key url g w kerr Hk). cbn [res].
    intros H. injection H as _ <-. split; reflexivity. }
  destruct (DialContext url w) as [[derr|c] w'] eqn:Hd.
  { rewrite (Execute_no_connection url g w key derr w' Hk Hd). cbn [res].
    intros H. injection H as _ <-. split; reflexivity. }
  destruct (setupTests (set_key key (PubkeyToAddress key) g))
    as [g2|p] eqn:Hs.
  - destruct (Execute_runs url g w key c w' g2 Hk Hd Hs) as [-> _].
    discriminate.
  - rewrite (Execute_setup_panics url g w key c w' p Hk Hd Hs). discriminate.
Qed.

(** X17: the first run of a process.  From the variables as [init]
    leaves them, with a key that parses, an endpoint that accepts the
    connection and literals that evaluate, the run returns nil; the
    registry then holds the 25 pointers, each once; 25 tests were
    started and 25 verdicts recorded, in the order of the registry. *)
Theorem Execute_fresh_run (url privateKeyFlag contractFlag : string)
  (key : PrivateKey) (c : Client) (w w' : W) :
  HexToECDSA privateKeyFlag = inr key ->
  DialContext url w = (inr c, w') ->
  literals_evaluate
    (set_key key (PubkeyToAddress key)
       (initial_globals W privateKeyFlag contractFlag)) ->
  let out := Execute [url] (initial_globals W privateKeyFlag contractFlag) w in
  exists g',
    res out = Ret (None, g')
    /\ allTests g' = catalog_vars
    /\ NoDup (allTests g')
    /\ testEthAddress g' = PubkeyToAddress key
    /\ started (logged out) = 25
    /\ map fst (verdicts (logged out))
       = map (fun p => Method (vars g' p)) catalog_vars.
Proof.
  intros Hk Hd Hlit. cbv zeta.
  destruct (setupTests_total _ Hlit) as [g' Hs].
  assert (Hl : allTests g' = catalog_vars).
  { now rewrite (setupTests_allTests _ g' Hs). }
  destruct (setupTests_config _ g' Hs) as [Ha _].
  destruct (Execute_runs url (initial_globals W privateKeyFlag contractFlag)
              w key c w' g' Hk Hd Hs) as [-> Hstarted].
  destruct (RunE_loop_lines c _ (registry_returns _ g' Hs) w')
    as (_ & Hm & _).
  exists g'. cbn [res logged].
  split; [reflexivity|]. split; [exact Hl|].
  split; [rewrite Hl; apply catalog_vars_NoDup|].
  split; [exact Ha|]. split.
  - change (started (line_loaded (AddressString (PubkeyToAddress key))
                       :: line_setup
                       :: logged (RunE_loop c (map (deref g') (allTests g'))
                                    w')))
      with (started (logged (RunE_loop c (map (deref g') (allTests g')) w'))).
    now rewrite Hstarted, Hl.
  - change (verdicts (line_loaded (AddressString (PubkeyToAddress key))
                        :: line_setup
                        :: logged (RunE_loop c (map (deref g') (allTests g'))
                                     w')))
      with (verdicts (logged (RunE_loop c (map (deref g') (allTests g'))
                                w'))).
    rewrite Hm, Hl, map_map. reflexivity.
Qed.

End CommandLaws.

Lemma double_key_literals_evaluate :
  literals_evaluate (regexp := LiteralRegex) (json := BoolJSON)
    (rpctypes := BoolSchemas)
    (set_key (eth := SuffixEth) codeQualityPrivateKey
       (PubkeyToAddress (EthLib := SuffixEth) codeQualityPrivateKey)
       double_globals).
Proof.
  unfold literals_evaluate.
  repeat (apply Forall_cons; [eexists; reflexivity|]).
  apply Forall_nil.
Defined.

(** A first run on the test doubles, against an endpoint that fails
    every call. *)
Lemma Execute_fresh_run_witness :
  exists g',
    res (Execute (regexp := LiteralRegex) (json := BoolJSON)
           (rpctypes := BoolSchemas) (eth := SuffixEth) (rpc := ScriptedRPC)
           ["http://localhost:8545"] double_globals (mkTestWorld [] 0))
    = Ret (None, g')
    /\ allTests g' = catalog_vars.
Proof.
  destruct (@Execute_fresh_run TestWorld LiteralRegex BoolJSON BoolSchemas
              SuffixEth ScriptedRPC "http://localhost:8545"
              codeQualityPrivateKey defaultContractAddress
              codeQualityPrivateKey tt (mkTestWorld [] 0) (mkTestWorld [] 0)
              eq_refl eq_refl double_key_literals_evaluate)
    as (g' & Hr & Hl & _).
  exists g'. split; [exact Hr | exact Hl].
Defined.

(** A run with two arguments. *)
Lemma Execute_failed_setup_keeps_registry_witness :
  allTests double_globals = [] /\ vars double_globals = vars double_globals.
Proof.
  apply (@Execute_failed_setup_keeps_registry TestWorld LiteralRegex BoolJSON
           BoolSchemas SuffixEth ScriptedRPC
           ["http://localhost:8545"; "http://localhost:8546"]
           double_globals (mkTestWorld [] 0)
           (Errorf "Expected 1 argument, but got %d" [VInt 2])
           double_globals eq_refl).
Defined.
